(** * Agent availability: CSV ingestion, date resolution and the 24-hour join

    A shallow embedding of [agent_availability.py]: the two CSV validators,
    [parse_available_date], [is_within_last_24_hours],
    [get_availability_records] and [calculate_availability], with the
    properties claimed of them.

    Conventions.
    - Text is a list of Unicode code points ([N]); [py "..."] turns an ASCII
      literal into text.  Files are byte sequences, decoded as the program
      opens them (['utf-8-sig'], universal newlines).
    - A [datetime] is the number of microseconds since 0001-01-01 00:00:00
      ([Z]); naive datetimes compare as these numbers do.
    - Exceptions are values of [exn]; a computation that may raise returns a
      [result].
    - [datetime.strptime] and the wall clock belong to the interpreter, not to
      the program: the program is parameterised by them.  Executable models
      of both are given in [Module Model]. *)

From Stdlib Require Import ZArith NArith List String Ascii Lia Permutation.
From Stdlib.Strings Require Import Byte.
From stdpp Require Import base option list gmap sets.
Import ListNotations.

Local Open Scope N_scope.

(** ** Text *)

Module Py.

(** An ASCII literal as text. *)
Definition py (s : string) : list N :=
  map N_of_ascii (list_ascii_of_string s).

(** [str.isspace] on one code point. *)
Definition isspace (c : N) : bool :=
  ((9 <=? c) && (c <=? 13)) || ((28 <=? c) && (c <=? 32))
  || (c =? 0x85) || (c =? 0xA0) || (c =? 0x1680)
  || ((0x2000 <=? c) && (c <=? 0x200A))
  || (c =? 0x2028) || (c =? 0x2029) || (c =? 0x202F)
  || (c =? 0x205F) || (c =? 0x3000).

Fixpoint lstrip_by (p : N -> bool) (s : list N) : list N :=
  match s with
  | [] => []
  | c :: r => if p c then lstrip_by p r else s
  end.

Definition rstrip_by (p : N -> bool) (s : list N) : list N :=
  rev (lstrip_by p (rev s)).

Definition strip_by (p : N -> bool) (s : list N) : list N :=
  rstrip_by p (lstrip_by p s).

(** [s.strip()] *)
Definition strip (s : list N) : list N := strip_by isspace s.

(** [s.strip(chars)] *)
Definition strip_chars (chars : list N) (s : list N) : list N :=
  strip_by (fun c => existsb (N.eqb c) chars) s.

Definition BOM : N := 0xFEFF.
Definition dquote : N := 34.
Definition squote : N := 39.
Definition comma : N := 44.

(** [str.lower] on one code point.  ASCII letters, U+212A (whose lower case
    is the ASCII [k]) and U+0130 (whose lower case is two code points) are
    exact.  Every other code point is kept: its lower-case form, where it
    has one, lies outside ASCII as well, and the program only compares
    lower-cased text with ASCII column names. *)
Definition lower_char (c : N) : list N :=
  if (65 <=? c) && (c <=? 90) then [c + 32]
  else if c =? 0x212A then [107]
  else if c =? 0x130 then [105; 0x307]
  else [c].

Definition lower (s : list N) : list N := flat_map lower_char s.

(** [s.split(sep)] for a one-character separator: never the empty list. *)
Fixpoint split (sep : N) (s : list N) : list (list N) :=
  match s with
  | [] => [[]]
  | c :: r =>
      if c =? sep then [] :: split sep r
      else match split sep r with
           | [] => [[c]]
           | f :: fs => (c :: f) :: fs
           end
  end.

(** [sep.join(l)] *)
Fixpoint join (sep : list N) (l : list (list N)) : list N :=
  match l with
  | [] => []
  | [x] => x
  | x :: r => x ++ sep ++ join sep r
  end.

End Py.
Export Py.

(** ** Exceptions *)

(** The messages of [CSVValidationError], by kind.  [row] is the row number
    the message names. *)
Inductive validation_error : Type :=
  | FileNotFound (csv_path : list N)      (* "CSV file not found: ..." *)
  | EmptyFile (csv_path : list N)         (* "CSV file is empty: ..." *)
  | NoHeaders (csv_path : list N)         (* "CSV file has no headers: ..." *)
  | HeaderMismatch (csv_path : list N) (expected got : list (list N))
                                          (* "Invalid headers in ..." *)
  | EmptyField (csv_path : list N) (row : nat)
                                          (* "Empty domain or agent name in ... at row ..." *)
  | MalformedRow (csv_path : list N) (row : nat)
                                          (* "Invalid row format in ... at row ..." *)
  | NoRecords (csv_path : list N)         (* "No data records found in CSV: ..." *)
  | InvalidDateFormat (date_str : list N) (* "Invalid date format: '...'. ..." *).

(** What a call can raise: the program's own [CSVValidationError], and the
    interpreter's exceptions. *)
Inductive exn : Type :=
  | CSVValidationError (e : validation_error)
  | AttributeError            (* attribute access on [None] *)
  | KeyError (key : list N)   (* subscript of a [dict] with an absent key *)
  | UnicodeDecodeError
  | CsvError                  (* [csv.Error] *).

Inductive result (A : Type) : Type :=
  | Ok (a : A)
  | Raise (e : exn).
Arguments Ok {A} a.
Arguments Raise {A} e.

Definition bind {A B : Type} (r : result A) (k : A -> result B) : result B :=
  match r with
  | Ok a => k a
  | Raise e => Raise e
  end.

Declare Scope py_scope.
Delimit Scope py_scope with py.
Notation "'let*' x := r 'in' k" := (bind r (fun x => k))
  (at level 10, x name, r at level 100, k at level 200) : py_scope.
Local Open Scope py_scope.

Definition is_validation_error {A : Type} (r : result A) : bool :=
  match r with
  | Raise (CSVValidationError _) => true
  | _ => false
  end.

(** ** Files *)

(** The file system the program reads: the bytes of each file that exists.
    A path is the text of its name. *)
Module Io.

Definition continuation (b : N) : bool := (0x80 <=? b) && (b <=? 0xBF).

(** The ['utf-8'] codec, strict: no overlong forms, no surrogates, nothing
    above U+10FFFF.  [None] is [UnicodeDecodeError]. *)
Fixpoint utf8_decode (bs : list N) : option (list N) :=
  match bs with
  | [] => Some []
  | b0 :: r0 =>
      if b0 <? 0x80 then cons b0 <$> utf8_decode r0
      else if (0xC2 <=? b0) && (b0 <=? 0xDF) then
        match r0 with
        | b1 :: r1 =>
            if continuation b1
            then cons ((b0 - 0xC0) * 64 + (b1 - 0x80)) <$> utf8_decode r1
            else None
        | _ => None
        end
      else if (0xE0 <=? b0) && (b0 <=? 0xEF) then
        match r0 with
        | b1 :: b2 :: r2 =>
            if ((if b0 =? 0xE0 then 0xA0 else 0x80) <=? b1)
               && (b1 <=? (if b0 =? 0xED then 0x9F else 0xBF))
               && continuation b2
            then cons ((b0 - 0xE0) * 4096 + (b1 - 0x80) * 64 + (b2 - 0x80))
                   <$> utf8_decode r2
            else None
        | _ => None
        end
      else if (0xF0 <=? b0) && (b0 <=? 0xF4) then
        match r0 with
        | b1 :: b2 :: b3 :: r3 =>
            if ((if b0 =? 0xF0 then 0x90 else 0x80) <=? b1)
               && (b1 <=? (if b0 =? 0xF4 then 0x8F else 0xBF))
               && continuation b2 && continuation b3
            then cons ((b0 - 0xF0) * 262144 + (b1 - 0x80) * 4096
                       + (b2 - 0x80) * 64 + (b3 - 0x80))
                   <$> utf8_decode r3
            else None
        | _ => None
        end
      else None
  end.

(** The ['utf-8-sig'] codec: one leading byte-order mark is dropped. *)
Definition utf8_sig_decode (bs : list N) : option (list N) :=
  match bs with
  | 0xEF :: 0xBB :: 0xBF :: r => utf8_decode r
  | _ => utf8_decode bs
  end.

(** Text mode with the default [newline=None]: ["\r\n"] and ["\r"] are read
    as ["\n"]. *)
Fixpoint universal_newlines (s : list N) : list N :=
  match s with
  | [] => []
  | c :: r =>
      if c =? 13 then
        match r with
        | c' :: r' =>
            if c' =? 10 then 10 :: universal_newlines r'
            else 10 :: universal_newlines r
        | [] => [10]
        end
      else c :: universal_newlines r
  end.

(** [open(csv_path, 'r', encoding='utf-8-sig')] and reading it to the end.
    The whole file is decoded at once, as [f.readlines()] of the
    availability validator does.  [csv.DictReader] of the baseline validator
    decodes buffer by buffer while the rows are asked for: on a baseline
    file with an invalid byte far enough behind a bad row the program
    raises the error of the row, where this model has [UnicodeDecodeError].
    On every file that decodes the two agree. *)
Definition read_text (content : list byte) : result (list N) :=
  match utf8_sig_decode (map Byte.to_N content) with
  | Some s => Ok (universal_newlines s)
  | None => Raise UnicodeDecodeError
  end.

(** The lines of a text file, each with its ["\n"] (the last one may lack
    it): [f.readlines()], and the lines iterating over [f] yields. *)
Fixpoint readlines (s : list N) : list (list N) :=
  match s with
  | [] => []
  | c :: r =>
      if c =? 10 then [c] :: readlines r
      else match readlines r with
           | [] => [[c]]
           | l :: ls => (c :: l) :: ls
           end
  end.

End Io.
Export Io.

(** ** The [csv] module

    [csv.reader] in its default dialect (comma as delimiter, the double quote as
    quote character, doubled quotes, not strict) is the state machine below; [csv.DictReader]
    reads its field names from the first row, skips empty rows and fills a
    short row with [None]. *)
Module Csv.

Inductive parser_state : Type :=
  | START_RECORD | START_FIELD | IN_FIELD | IN_QUOTED_FIELD
  | QUOTE_IN_QUOTED_FIELD | EAT_CRNL.

(** [fields] and [field] grow at the head. *)
Record reader : Type := mk_reader {
  state : parser_state;
  fields : list (list N);
  field : list N
}.

Definition parse_reset : reader :=
  {| state := START_RECORD; fields := []; field := [] |}.

Definition set_state (st : parser_state) (r : reader) : reader :=
  {| state := st; fields := fields r; field := field r |}.

Definition field_limit : N := 131072.

Definition parse_add_char (r : reader) (c : N) : result reader :=
  if field_limit <=? N.of_nat (length (field r)) then Raise CsvError
  else Ok {| state := state r; fields := fields r; field := c :: field r |}.

Definition parse_save_field (r : reader) : reader :=
  {| state := state r; fields := rev (field r) :: fields r; field := [] |}.

Definition is_newline (c : N) : bool := (c =? 10) || (c =? 13).

(** The case [START_FIELD], which [START_RECORD] falls through to. *)
Definition start_field (r : reader) (c : option N) : result reader :=
  match c with
  | None => Ok (set_state START_RECORD (parse_save_field r))
  | Some ch =>
      if is_newline ch then Ok (set_state EAT_CRNL (parse_save_field r))
      else if ch =? dquote then Ok (set_state IN_QUOTED_FIELD r)
      else if ch =? comma then Ok (set_state START_FIELD (parse_save_field r))
      else let* r' := parse_add_char r ch in Ok (set_state IN_FIELD r')
  end.

(** One character of a line, or the end of the line ([None]). *)
Definition parse_process_char (r : reader) (c : option N) : result reader :=
  match state r with
  | START_RECORD =>
      match c with
      | None => Ok r
      | Some ch =>
          if is_newline ch then Ok (set_state EAT_CRNL r) else start_field r c
      end
  | START_FIELD => start_field r c
  | IN_FIELD =>
      match c with
      | None => Ok (set_state START_RECORD (parse_save_field r))
      | Some ch =>
          if is_newline ch then Ok (set_state EAT_CRNL (parse_save_field r))
          else if ch =? comma then Ok (set_state START_FIELD (parse_save_field r))
          else parse_add_char r ch
      end
  | IN_QUOTED_FIELD =>
      match c with
      | None => Ok r
      | Some ch =>
          if ch =? dquote then Ok (set_state QUOTE_IN_QUOTED_FIELD r)
          else parse_add_char r ch
      end
  | QUOTE_IN_QUOTED_FIELD =>
      match c with
      | None => Ok (set_state START_RECORD (parse_save_field r))
      | Some ch =>
          if ch =? dquote then
            let* r' := parse_add_char r ch in Ok (set_state IN_QUOTED_FIELD r')
          else if ch =? comma then Ok (set_state START_FIELD (parse_save_field r))
          else if is_newline ch then Ok (set_state EAT_CRNL (parse_save_field r))
          else let* r' := parse_add_char r ch in Ok (set_state IN_FIELD r')
      end
  | EAT_CRNL =>
      match c with
      | None => Ok (set_state START_RECORD r)
      | Some ch => if is_newline ch then Ok r else Raise CsvError
      end
  end.

Fixpoint process_line (r : reader) (line : list N) : result reader :=
  match line with
  | [] => parse_process_char r None
  | c :: l => let* r' := parse_process_char r (Some c) in process_line r' l
  end.

(** The rows the reader yields from the lines it is given, in order, and the
    exception that ends the iteration, if one does: the reader is lazy, a
    row is produced before the lines after it are looked at. *)
Fixpoint rows_from (r : reader) (lines : list (list N))
  : list (list (list N)) * option exn :=
  match lines with
  | [] =>
      match field r, state r with
      | [], START_RECORD | [], START_FIELD | [], IN_FIELD
      | [], QUOTE_IN_QUOTED_FIELD | [], EAT_CRNL => ([], None)
      | _, _ => ([rev (fields (parse_save_field r))], None)
      end
  | l :: ls =>
      match process_line r l with
      | Raise e => ([], Some e)
      | Ok r' =>
          match state r' with
          | START_RECORD =>
              let (rows, e) := rows_from parse_reset ls in
              (rev (fields r') :: rows, e)
          | _ => rows_from r' ls
          end
      end
  end.

(** [csv.reader(f)] *)
Definition reader_rows (lines : list (list N))
  : list (list (list N)) * option exn :=
  rows_from parse_reset lines.

(** The [dict] a [DictReader] builds for one row: [dict(zip(fieldnames,
    row))], then [None] for the field names the row is too short for.
    (The extra fields of a long row go under the key [None], which text
    never equals; the entry is left out.) *)
Definition dict_row (fieldnames row : list (list N))
  : gmap (list N) (option (list N)) :=
  let values :=
    map Some row ++ repeat None (length fieldnames - length row)%nat in
  fold_left (fun d kv => <[kv.1 := kv.2]> d) (zip fieldnames values) ∅.

(** [row[key]] *)
Definition subscript (d : gmap (list N) (option (list N))) (key : list N)
  : result (option (list N)) :=
  match d !! key with
  | Some v => Ok v
  | None => Raise (KeyError key)
  end.

(** [v.strip()] for [v] that may be [None]. *)
Definition strip_value (v : option (list N)) : result (list N) :=
  match v with
  | Some s => Ok (strip s)
  | None => Raise AttributeError
  end.

End Csv.

(** ** The validators *)

Definition BASELINE_COLUMNS : list (list N) := [py "Domain"; py "Agent Name"].

Definition AVAILABILITY_COLUMNS : list (list N) :=
  [py "Domain"; py "Agent Name"; py "Last Available Date"].

(** The rows loop of [validate_baseline_csv]: [rows] are the rows the reader
    has still to yield, [err] the exception that ends its iteration. *)
Fixpoint baseline_rows (csv_path : list N) (fieldnames : list (list N))
    (row_num : nat) (rows : list (list (list N))) (err : option exn)
    (records : list (list N * list N)) : result (list (list N * list N)) :=
  match rows with
  | [] => match err with Some e => Raise e | None => Ok records end
  | [] :: rest => baseline_rows csv_path fieldnames row_num rest err records
  | row :: rest =>
      let d := Csv.dict_row fieldnames row in
      let* v := Csv.subscript d (py "Domain") in
      let* domain := Csv.strip_value v in
      let* w := Csv.subscript d (py "Agent Name") in
      let* agent_name := Csv.strip_value w in
      match domain, agent_name with
      | [], _ | _, [] => Raise (CSVValidationError (EmptyField csv_path row_num))
      | _, _ =>
          baseline_rows csv_path fieldnames (S row_num) rest err
            (records ++ [(domain, agent_name)])
      end
  end.

Definition validate_baseline_csv (fs : gmap (list N) (list byte))
    (csv_path : list N) : result (list (list N * list N)) :=
  match fs !! csv_path with
  | None => Raise (CSVValidationError (FileNotFound csv_path))
  | Some [] => Raise (CSVValidationError (EmptyFile csv_path))
  | Some content =>
      let* f := read_text content in
      match Csv.reader_rows (readlines f) with
      | ([], Some e) => Raise e
      | ([], None) => Raise (CSVValidationError (NoHeaders csv_path))
      | (headers :: rows, err) =>
          let normalized_headers :=
            map (fun h => strip_chars [BOM] (strip h)) headers in
          if decide (normalized_headers = BASELINE_COLUMNS) then
            let* records := baseline_rows csv_path headers 2 rows err [] in
            match records with
            | [] => Raise (CSVValidationError (NoRecords csv_path))
            | _ => Ok records
            end
          else
            Raise (CSVValidationError
                     (HeaderMismatch csv_path BASELINE_COLUMNS normalized_headers))
      end
  end.

(** The character loop of [validate_availability_csv]: a double quote flips
    [in_quotes] and is dropped, a comma outside quotes ends the part. *)
Fixpoint split_respecting_quotes (line : list N) (parts : list (list N))
    (current : list N) (in_quotes : bool) : list (list N) :=
  match line with
  | [] => parts ++ [current]
  | char :: rest =>
      if char =? dquote then
        split_respecting_quotes rest parts current (negb in_quotes)
      else if (char =? comma) && negb in_quotes then
        split_respecting_quotes rest (parts ++ [current]) [] in_quotes
      else
        split_respecting_quotes rest parts (current ++ [char]) in_quotes
  end.

(** [p.strip()], then [strip] of the double quote, then [strip] of the
    single quote. *)
Definition strip_quotes (p : list N) : list N :=
  strip_chars [squote] (strip_chars [dquote] (strip p)).

(** [h.strip()], then [strip] of the byte-order mark, of the double quote
    and of the single quote, in this order. *)
Definition strip_header (h : list N) : list N :=
  strip_chars [squote] (strip_chars [dquote] (strip_chars [BOM] (strip h))).

(** One pass of the data-row loop of [validate_availability_csv] on a line
    already stripped and not empty: the record the row gives. *)
Definition availability_row (csv_path : list N) (row_num : nat) (line : list N)
  : result (list N * list N * list N) :=
  let parts := split_respecting_quotes line [] [] false in
  if (length parts <? 3)%nat then
    Raise (CSVValidationError (MalformedRow csv_path row_num))
  else
    let domain := strip_quotes (nth 0 parts []) in
    let agent_name := strip_quotes (nth 1 parts []) in
    let available_date := join (py ", ") (map strip_quotes (drop 2 parts)) in
    match agent_name, domain with
    | [], _ | _, [] => Raise (CSVValidationError (EmptyField csv_path row_num))
    | _, _ => Ok (domain, agent_name, available_date)
    end.

Fixpoint availability_rows (csv_path : list N) (row_num : nat)
    (lines : list (list N)) (records : list (list N * list N * list N))
  : result (list (list N * list N * list N)) :=
  match lines with
  | [] => Ok records
  | line :: rest =>
      match strip line with
      | [] => availability_rows csv_path (S row_num) rest records
      | line' =>
          let* record := availability_row csv_path row_num line' in
          availability_rows csv_path (S row_num) rest (records ++ [record])
      end
  end.

(** The header columns of an availability file, as the error message shows
    them: the first line split at every comma. *)
Definition availability_headers (first_line : list N) : list (list N) :=
  map strip_header (split comma (strip first_line)).

Definition validate_availability_csv (fs : gmap (list N) (list byte))
    (csv_path : list N) : result (list (list N * list N * list N)) :=
  match fs !! csv_path with
  | None => Raise (CSVValidationError (FileNotFound csv_path))
  | Some [] => Ok []
  | Some content =>
      let* f := read_text content in
      match readlines f with
      | [] => Raise (CSVValidationError (EmptyFile csv_path))
      | first_line :: data =>
          let headers := availability_headers first_line in
          let headers_normalized :=
            map (fun h => lower (strip_header h)) headers in
          let expected_normalized := map lower AVAILABILITY_COLUMNS in
          if decide (headers_normalized = expected_normalized) then
            availability_rows csv_path 2 data []
          else
            Raise (CSVValidationError
                     (HeaderMismatch csv_path AVAILABILITY_COLUMNS headers))
      end
  end.

(** ** Dates, the availability index and the classification *)

Local Open Scope Z_scope.

(** The result of [calculate_availability] for one domain (the source keeps
    it in a [dict] with these four keys). *)
Record domain_results : Type := mk_domain_results {
  total : nat;
  available : gset (list N);
  not_available : gset (list N);
  last_available_dates : gmap (list N) Z
}.

(** [timedelta(hours=h)], in microseconds. *)
Definition timedelta_hours (h : Z) : Z := h * 3600 * 1000000.

Definition date_formats : list (list N) :=
  [ py "%Y-%m-%d %H:%M:%S";
    py "%b %d, %Y @ %H:%M:%S.%f";
    py "%b %d, %Y @ %H:%M:%S";
    py "%B %d, %Y @ %H:%M:%S.%f";
    py "%B %d, %Y @ %H:%M:%S";
    py "%d-%m-%Y %H:%M:%S";
    py "%m/%d/%Y %H:%M:%S";
    py "%Y/%m/%d %H:%M:%S" ].

Section Program.

(** [datetime.strptime(date_string, format)]; [None] stands for its
    [ValueError]. *)
Context (strptime : list N -> list N -> option Z).

(** The wall clock: [clock n] is what the call number [n] of
    [datetime.now()] returns, counting from 0.  A computation that reads
    the clock takes the number of calls made so far and returns it
    updated. *)
Context (clock : nat -> Z).

(** The [for fmt in date_formats] loop: the first format that
    [strptime] accepts decides. *)
Fixpoint try_formats (date_str : list N) (formats : list (list N))
  : option Z :=
  match formats with
  | [] => None
  | fmt :: rest =>
      match strptime date_str fmt with
      | Some d => Some d
      | None => try_formats date_str rest
      end
  end.

Definition parse_available_date (date_str : list N) : result Z :=
  let date_str := strip date_str in
  match try_formats date_str date_formats with
  | Some d => Ok d
  | None => Raise (CSVValidationError (InvalidDateFormat date_str))
  end.

Definition is_within_last_24_hours (available_date : Z) (calls : nat)
  : bool * nat :=
  let now := clock calls in
  let twenty_four_hours_ago := now - timedelta_hours 24 in
  (available_date >=? twenty_four_hours_ago, S calls).

(** [if key not in availability_map or available_date >
    availability_map[key]: availability_map[key] = available_date] *)
Definition keep_most_recent (availability_map : gmap (list N * list N) Z)
    (key : list N * list N) (available_date : Z)
  : gmap (list N * list N) Z :=
  match availability_map !! key with
  | None => <[key := available_date]> availability_map
  | Some seen =>
      if available_date >? seen
      then <[key := available_date]> availability_map
      else availability_map
  end.

(** The loop of [get_availability_records] over the validated records. *)
Fixpoint availability_map_from
    (records : list (list N * list N * list N))
    (availability_map : gmap (list N * list N) Z)
  : result (gmap (list N * list N) Z) :=
  match records with
  | [] => Ok availability_map
  | (domain, agent_name, available_date_str) :: rest =>
      let* available_date := parse_available_date available_date_str in
      let key := (agent_name, domain) in
      availability_map_from rest
        (keep_most_recent availability_map key available_date)
  end.

Definition get_availability_records (fs : gmap (list N) (list byte))
    (csv_path : list N) : result (gmap (list N * list N) Z) :=
  let* records := validate_availability_csv fs csv_path in
  availability_map_from records ∅.

(** The body of [for agent_name in agents]. *)
Definition classify_agent (availability_map : gmap (list N * list N) Z)
    (domain : list N) (acc : domain_results * nat) (agent_name : list N)
  : domain_results * nat :=
  let (r, calls) := acc in
  let key := (agent_name, domain) in
  match availability_map !! key with
  | None =>
      (mk_domain_results (total r) (available r)
         ({[agent_name]} ∪ not_available r) (last_available_dates r), calls)
  | Some available_date =>
      let (within, calls') := is_within_last_24_hours available_date calls in
      if within then
        (mk_domain_results (total r) ({[agent_name]} ∪ available r)
           (not_available r)
           (<[agent_name := available_date]> (last_available_dates r)), calls')
      else
        (mk_domain_results (total r) (available r)
           ({[agent_name]} ∪ not_available r)
           (<[agent_name := available_date]> (last_available_dates r)), calls')
  end.

(** The body of [for domain, agents in baseline_agents.items()].  A set is
    gone through in the order of [elements] here; the order Python takes is
    not fixed by the contents of the set, and [classify_domain_visiting]
    below leaves it open. *)
Definition classify_domain (availability_map : gmap (list N * list N) Z)
    (acc : gmap (list N) domain_results * nat)
    (item : list N * gset (list N))
  : gmap (list N) domain_results * nat :=
  let (results, calls) := acc in
  let (domain, agents) := item in
  let domain_results0 := mk_domain_results (size agents) ∅ ∅ ∅ in
  let (r, calls') :=
    fold_left (classify_agent availability_map domain) (elements agents)
      (domain_results0, calls) in
  (<[domain := r]> results, calls').

(** [calculate_availability], started when [calls] calls of
    [datetime.now()] have been made: the results, and the number of calls
    made when it returns.  The items of the [dict] are gone through in the
    order of [map_to_list]. *)
Definition calculate_availability
    (baseline_agents : gmap (list N) (gset (list N)))
    (availability_map : gmap (list N * list N) Z) (calls : nat)
  : gmap (list N) domain_results * nat :=
  fold_left (classify_domain availability_map) (map_to_list baseline_agents)
    (∅, calls).

End Program.

(** ** The order of visit

    [for agent_name in agents] goes through a Python [set] in an order that
    the contents of the set do not fix (it depends on the hashes of the
    strings, which change from one run of the interpreter to the next, and
    on how the set was built); [baseline_agents.items()] goes through the
    [dict] in the order its keys were put in.  Below, [visit] gives the
    order in which the agents of the set of a domain are met (two domains
    with the same agents need not have them in the same order) and [items]
    the items of the baseline in the order the loop meets them;
    [classify_domain] and [calculate_availability] are the case of
    [elements] and [map_to_list]. *)

Definition classify_domain_visiting
    (visit : list N -> gset (list N) -> list (list N))
    (clock : nat -> Z) (availability_map : gmap (list N * list N) Z)
    (acc : gmap (list N) domain_results * nat)
    (item : list N * gset (list N))
  : gmap (list N) domain_results * nat :=
  let (results, calls) := acc in
  let (domain, agents) := item in
  let domain_results0 := mk_domain_results (size agents) ∅ ∅ ∅ in
  let (r, calls') :=
    fold_left (classify_agent clock availability_map domain)
      (visit domain agents) (domain_results0, calls) in
  (<[domain := r]> results, calls').

Definition calculate_availability_visiting
    (visit : list N -> gset (list N) -> list (list N))
    (items : list (list N * gset (list N)))
    (clock : nat -> Z) (availability_map : gmap (list N * list N) Z)
    (calls : nat)
  : gmap (list N) domain_results * nat :=
  fold_left (classify_domain_visiting visit clock availability_map) items
    (∅, calls).

(** ** The specification's operations that the program has in another form *)

Module Spec.

(** The specification's [classify(baseline_sets, index, now)], for one
    domain: [now] is an argument, an agent is available when its indexed
    timestamp is at least [now - 24h]. *)
Definition fresh_at (index : gmap (list N * list N) Z) (now : Z)
    (domain agent : list N) : bool :=
  match index !! (agent, domain) with
  | Some ts => bool_decide (now - timedelta_hours 24 ≤ ts)
  | None => false
  end.

Definition classify_domain_at (index : gmap (list N * list N) Z) (now : Z)
    (domain : list N) (agents : gset (list N)) : domain_results :=
  {| total := size agents;
     available := filter (λ a, fresh_at index now domain a = true) agents;
     not_available := filter (λ a, fresh_at index now domain a = false) agents;
     last_available_dates :=
       map_imap (λ a _, index !! (a, domain)) (gset_to_gmap tt agents) |}.

Definition classify (baseline_sets : gmap (list N) (gset (list N)))
    (index : gmap (list N * list N) Z) (now : Z)
  : gmap (list N) domain_results :=
  map_imap (λ d agents, Some (classify_domain_at index now d agents))
    baseline_sets.

(** The header columns as the specification has them tokenised: by the
    splitter of the data lines. *)
Definition availability_headers_quote_aware (first_line : list N)
  : list (list N) :=
  map strip_header (split_respecting_quotes (strip first_line) [] [] false).

(** *** Data lines as the feed writes them

    A data line is a sequence of fields separated by commas.  A field is
    written with optional whitespace around it, and either as it is, or
    between two double quotes (it may then hold commas), or between two
    single quotes. *)
Inductive quoting : Type := Bare | DoubleQuoted | SingleQuoted.

Record field : Type := mk_field {
  lead : list N;          (* whitespace before the field *)
  quoting_of : quoting;
  value : list N;
  trail : list N          (* whitespace after it *)
}.

Definition write (f : field) : list N :=
  lead f
  ++ match quoting_of f with
     | Bare => value f
     | DoubleQuoted => dquote :: value f ++ [dquote]
     | SingleQuoted => squote :: value f ++ [squote]
     end
  ++ trail f.

Definition write_line (fields : list field) : list N :=
  join [comma] (map write fields).

(** What is left of a written field once the double quotes are taken out. *)
Definition without_double_quotes (f : field) : list N :=
  lead f
  ++ match quoting_of f with
     | Bare | DoubleQuoted => value f
     | SingleQuoted => squote :: value f ++ [squote]
     end
  ++ trail f.

(** [s] begins or ends with a character of the class [p]. *)
Definition at_an_end (p : N -> bool) (s : list N) : bool :=
  match s with [] => false | c :: _ => p c end
  || match rev s with [] => false | c :: _ => p c end.

Definition has (c : N) (s : list N) : bool := existsb (N.eqb c) s.

(** The padding is whitespace; the value holds no double quote, and no comma
    unless it is between double quotes; it neither begins nor ends with a
    single quote, nor, unless it is between single quotes, with
    whitespace.  (Whitespace just inside double quotes and single quotes
    at the ends of a value would be trimmed with the padding and the
    quotes.) *)
Definition well_written (f : field) : bool :=
  forallb isspace (lead f) && forallb isspace (trail f)
  && negb (has dquote (value f))
  && negb (at_an_end (fun c => c =? squote)%N (value f))
  && match quoting_of f with
     | Bare =>
         negb (has comma (value f)) && negb (at_an_end isspace (value f))
     | DoubleQuoted => negb (at_an_end isspace (value f))
     | SingleQuoted => negb (has comma (value f))
     end.

End Spec.

(** ** Executable models of what the interpreter provides *)

Module Model.

Local Open Scope N_scope.

(** A file with the given lines, each ended by a line feed. *)
Definition file_of_lines (lines : list (list N)) : list byte :=
  flat_map (fun l => omap Byte.of_N l ++ [Byte.x0a]) lines.

(** A clock that stands still at [now]. *)
Definition steady (now : Z) : nat -> Z := fun _ => now.

(** *** [datetime.strptime]

    The directives of [date_formats], matched as the regular expressions
    of the interpreter's [_strptime] match them (alternatives in order,
    with backtracking, letters without regard to case), on ASCII digits
    and the English month names.  A format with any other directive, or a
    dangling [%], is refused, as it is there. *)

Inductive token : Type :=
  | Directive (d : N)
  | Whitespace
  | Literal (c : N).

Fixpoint tokens (fmt : list N) : option (list token) :=
  match fmt with
  | [] => Some []
  | c :: r =>
      if c =? 37 then
        match r with
        | d :: r' => cons (Directive d) <$> tokens r'
        | [] => None
        end
      else if isspace c then
        match tokens r with
        | Some (Whitespace :: ts) => Some (Whitespace :: ts)
        | Some ts => Some (Whitespace :: ts)
        | None => None
        end
      else cons (Literal c) <$> tokens r
  end.

Definition within (lo hi : N) (c : N) : bool := (lo <=? c) && (c <=? hi).
Definition digit : N -> bool := within 48 57.
Definition is_char (a : N) (c : N) : bool := c =? a.

Definition fold_case (c : N) : N := if within 65 90 c then c + 32 else c.
Definition same_letter (a : N) (c : N) : bool := fold_case c =? fold_case a.

Definition word (w : string) : list (N -> bool) := map same_letter (py w).

Definition month_names : list string :=
  [ "january"; "february"; "march"; "april"; "may"; "june"; "july";
    "august"; "september"; "october"; "november"; "december" ]%string.

Definition month_abbreviations : list string :=
  [ "jan"; "feb"; "mar"; "apr"; "may"; "jun"; "jul"; "aug"; "sep"; "oct";
    "nov"; "dec" ]%string.

(** The alternatives of a directive, in the order they are tried; each is
    a sequence of character classes.  (For the month names the order is of
    no consequence: no name begins another.) *)
Definition alternatives (d : N) : option (list (list (N -> bool))) :=
  if d =? 89 (* Y *) then Some [[digit; digit; digit; digit]]
  else if d =? 109 (* m *) then
    Some [[is_char 49; within 48 50]; [is_char 48; within 49 57]; [within 49 57]]
  else if d =? 100 (* d *) then
    Some [[is_char 51; within 48 49]; [within 49 50; digit];
          [is_char 48; within 49 57]; [within 49 57];
          [is_char 32; within 49 57]]
  else if d =? 72 (* H *) then
    Some [[is_char 50; within 48 51]; [within 48 49; digit]; [digit]]
  else if d =? 77 (* M *) then Some [[within 48 53; digit]; [digit]]
  else if d =? 83 (* S *) then
    Some [[is_char 54; within 48 49]; [within 48 53; digit]; [digit]]
  else if d =? 102 (* f *) then
    Some [repeat digit 6; repeat digit 5; repeat digit 4; repeat digit 3;
          repeat digit 2; repeat digit 1]
  else if d =? 98 (* b *) then Some (map word month_abbreviations)
  else if d =? 66 (* B *) then Some (map word month_names)
  else None.

Fixpoint match_classes (cs : list (N -> bool)) (s : list N)
  : option (list N * list N) :=
  match cs, s with
  | [], _ => Some ([], s)
  | p :: cs', c :: r =>
      if p c then
        match match_classes cs' r with
        | Some (m, rest) => Some (c :: m, rest)
        | None => None
        end
      else None
  | _ :: _, [] => None
  end.

Fixpoint span_length (p : N -> bool) (s : list N) : nat :=
  match s with
  | c :: r => if p c then S (span_length p r) else O
  | [] => O
  end.

(** All the ways the tokens match a prefix of [s], the preferred first:
    what each directive matched, and what is left of [s]. *)
Fixpoint match_tokens (ts : list token) (s : list N)
  : list (list (N * list N) * list N) :=
  match ts with
  | [] => [([], s)]
  | Directive d :: ts' =>
      match alternatives d with
      | None => []
      | Some alts =>
          flat_map
            (fun alt =>
               match match_classes alt s with
               | Some (m, rest) =>
                   map (fun cr => ((d, m) :: fst cr, snd cr))
                     (match_tokens ts' rest)
               | None => []
               end)
            alts
      end
  | Whitespace :: ts' =>
      flat_map (fun k => match_tokens ts' (drop k s))
        (rev (seq 1 (span_length isspace s)))
  | Literal c :: ts' =>
      match s with
      | c' :: r => if same_letter c c' then match_tokens ts' r else []
      | [] => []
      end
  end.

Local Open Scope Z_scope.

(** [int(s)] on what a numeric directive matched. *)
Definition number (s : list N) : Z :=
  fold_left
    (fun acc c => if digit c then acc * 10 + Z.of_N (c - 48) else acc) s 0.

Fixpoint captured (d : N) (caps : list (N * list N)) : option (list N) :=
  match caps with
  | [] => None
  | (d', m) :: r => if (d' =? d)%N then Some m else captured d r
  end.

Definition number_of (d : N) (default : Z) (caps : list (N * list N)) : Z :=
  match captured d caps with
  | Some m => number m
  | None => default
  end.

Fixpoint position (m : list N) (names : list string) (i : Z) : option Z :=
  match names with
  | [] => None
  | w :: r =>
      if decide (map fold_case m = py w) then Some i
      else position m r (i + 1)
  end.

Definition month_of (caps : list (N * list N)) : Z :=
  match captured 98 caps, captured 66 caps with
  | Some m, _ => default 1 (position m month_abbreviations 1)
  | None, Some m => default 1 (position m month_names 1)
  | None, None => number_of 109 1 caps
  end.

Definition is_leap (y : Z) : bool :=
  (y mod 4 =? 0) && (negb (y mod 100 =? 0) || (y mod 400 =? 0)).

Definition days_in_month (y m : Z) : Z :=
  if m =? 2 then (if is_leap y then 29 else 28)
  else if (m =? 4) || (m =? 6) || (m =? 9) || (m =? 11) then 30
  else 31.

Definition days_before_year (y : Z) : Z :=
  (y - 1) * 365 + (y - 1) / 4 - (y - 1) / 100 + (y - 1) / 400.

Definition days_before_month (y m : Z) : Z :=
  fold_left (fun acc k => acc + days_in_month y (Z.of_nat k))
    (seq 1 (Z.to_nat (m - 1))) 0.

(** The [datetime] of the fields, when they are those of one: the year in
    [1..9999], the day within the month, the second below 60. *)
Definition datetime (year month day hour minute second microsecond : Z)
  : option Z :=
  if (1 <=? year) && (year <=? 9999) && (1 <=? month) && (month <=? 12)
     && (1 <=? day) && (day <=? days_in_month year month)
     && (hour <=? 23) && (minute <=? 59) && (second <=? 59)
  then
    Some (((((days_before_year year + days_before_month year month + (day - 1))
              * 24 + hour) * 60 + minute) * 60 + second) * 1000000
          + microsecond)
  else None.

Definition fraction (caps : list (N * list N)) : Z :=
  match captured 102 caps with
  | Some m => number m * 10 ^ (6 - Z.of_nat (length m))
  | None => 0
  end.

Definition strptime (date_string format : list N) : option Z :=
  match tokens format with
  | None => None
  | Some ts =>
      match match_tokens ts date_string with
      | (caps, []) :: _ =>
          datetime (number_of 89 1900 caps) (month_of caps)
            (number_of 100 1 caps) (number_of 72 0 caps)
            (number_of 77 0 caps) (number_of 83 0 caps) (fraction caps)
      | _ => None
      end
  end.

End Model.

(** ** The baseline store

    The SQLite database, as the program uses it: two tables of rows
    [(domain, agent_name, operating_system)], each with the constraint
    [UNIQUE(domain, agent_name)].  A [database] is the committed content of
    the tables, as [create_database] sets them up; changes a connection makes
    and does not commit are lost with it. *)
Module Store.

(** [WINDOWS_TABLE] and [LINUX_TABLE] *)
Inductive table_name : Type := windows_agents | linux_agents.

Record database : Type := mk_database {
  windows_rows : list (list N * list N * list N);
  linux_rows : list (list N * list N * list N)
}.

Definition rows_of (t : table_name) (db : database)
  : list (list N * list N * list N) :=
  match t with
  | windows_agents => windows_rows db
  | linux_agents => linux_rows db
  end.

Definition with_rows (t : table_name) (rows : list (list N * list N * list N))
    (db : database) : database :=
  match t with
  | windows_agents => mk_database rows (linux_rows db)
  | linux_agents => mk_database (windows_rows db) rows
  end.

(** How a call that uses the database ends: it returns, it raises one of the
    exceptions of the validators, or it raises [sqlite3.IntegrityError]. *)
Inductive ending (A : Type) : Type :=
  | Returned (a : A)
  | Raised (e : exn)
  | RaisedIntegrityError.
Arguments Returned {A} a.
Arguments Raised {A} e.
Arguments RaisedIntegrityError {A}.

(** [INSERT INTO table (domain, agent_name, operating_system) VALUES (?, ?, ?)]:
    refused when the table has a row with this domain and agent name. *)
Definition insert (domain agent_name operating_system : list N)
    (rows : list (list N * list N * list N))
  : option (list (list N * list N * list N)) :=
  if decide ((domain, agent_name) ∈ map fst rows) then None
  else Some (rows ++ [(domain, agent_name, operating_system)]).

(** The loop [for domain, agent_name in records: cursor.execute(INSERT ...)] *)
Fixpoint insert_records (operating_system : list N)
    (records : list (list N * list N))
    (rows : list (list N * list N * list N))
  : option (list (list N * list N * list N)) :=
  match records with
  | [] => Some rows
  | (domain, agent_name) :: rest =>
      match insert domain agent_name operating_system rows with
      | Some rows' => insert_records operating_system rest rows'
      | None => None
      end
  end.

(** The body [load_baseline_windows] and [load_baseline_linux] share: the
    file is validated, the table is emptied, the records are inserted and
    the whole is committed.  The database after the call, and how the call
    ends; when it returns, the number of agents it reports. *)
Definition load_baseline (t : table_name) (operating_system : list N)
    (fs : gmap (list N) (list byte)) (csv_path : list N) (db : database)
  : database * ending nat :=
  match validate_baseline_csv fs csv_path with
  | Raise e => (db, Raised e)
  | Ok records =>
      match insert_records operating_system records [] with
      | Some rows => (with_rows t rows db, Returned (length records))
      | None => (db, RaisedIntegrityError)
      end
  end.

Definition load_baseline_windows :=
  load_baseline windows_agents (py "Windows").

Definition load_baseline_linux :=
  load_baseline linux_agents (py "Linux").

(** [SELECT DISTINCT domain, agent_name FROM table] *)
Definition select_distinct (rows : list (list N * list N * list N))
  : list (list N * list N) :=
  remove_dups (map fst rows).

(** The body of the loop of [get_baseline_agents]. *)
Definition group_row (agents_by_domain : gmap (list N) (gset (list N)))
    (r : list N * list N) : gmap (list N) (gset (list N)) :=
  let (domain, agent_name) := r in
  let agents_by_domain :=
    match agents_by_domain !! domain with
    | None => <[domain := ∅]> agents_by_domain
    | Some _ => agents_by_domain
    end in
  alter (λ agents, {[agent_name]} ∪ agents) domain agents_by_domain.

Definition get_baseline_agents (t : table_name) (db : database)
  : gmap (list N) (gset (list N)) :=
  fold_left group_row (select_distinct (rows_of t db)) ∅.

(** [check_availability], up to the results it hands to the report
    functions: [None] when it returns [False] for want of baseline data,
    the Windows and the Linux results when it goes on to the reports (and
    returns [True]); with them, the number of clock readings made. *)
Definition check_availability (strptime : list N -> list N -> option Z)
    (clock : nat -> Z) (fs : gmap (list N) (list byte)) (db : database)
    (windows_csv linux_csv : list N) (calls : nat)
  : result (option (gmap (list N) domain_results
                    * gmap (list N) domain_results)) * nat :=
  let windows_baseline := get_baseline_agents windows_agents db in
  let linux_baseline := get_baseline_agents linux_agents db in
  if decide (windows_baseline = ∅ ∧ linux_baseline = ∅) then (Ok None, calls)
  else
    match get_availability_records strptime fs windows_csv with
    | Raise e => (Raise e, calls)
    | Ok windows_availability =>
        match get_availability_records strptime fs linux_csv with
        | Raise e => (Raise e, calls)
        | Ok linux_availability =>
            let (windows_results, calls1) :=
              calculate_availability clock windows_baseline
                windows_availability calls in
            let (linux_results, calls2) :=
              calculate_availability clock linux_baseline
                linux_availability calls1 in
            (Ok (Some (windows_results, linux_results)), calls2)
        end
    end.

End Store.

(** ** Concrete inputs *)

Module Example.

Definition Domain1 : list N := py "Domain1".
Definition HOST01 : list N := py "WIN-HOST01".
Definition HOST02 : list N := py "WIN-HOST02".
Definition HOST03 : list N := py "WIN-HOST03".

Definition baseline : gmap (list N) (gset (list N)) :=
  {[ Domain1 := {[ HOST01; HOST02; HOST03 ]} ]}.

(** 2026-01-31 12:00:00 *)
Definition noon : Z := 63905457600000000.

(** [HOST01] was seen exactly 24 hours before [noon], [HOST02] one
    microsecond earlier, [HOST03] never. *)
Definition index : gmap (list N * list N) Z :=
  {[ (HOST01, Domain1) := noon - timedelta_hours 24;
     (HOST02, Domain1) := noon - timedelta_hours 24 - 1 ]}.

(** Both seen at [noon]. *)
Definition index_noon : gmap (list N * list N) Z :=
  {[ (HOST01, Domain1) := noon; (HOST02, Domain1) := noon ]}.

(** A clock that reads [noon] once and is two days later from then on. *)
Definition jumping (calls : nat) : Z :=
  match calls with
  | O => noon
  | S _ => noon + timedelta_hours 48
  end.

(** Three rows for one agent; the latest timestamp is in the middle. *)
Definition feed : list (list N * list N * list N) :=
  [ (Domain1, HOST01, py "2026-01-30 10:00:00");
    (Domain1, HOST01, py "Jan 31, 2026 @ 12:00:00.000");
    (Domain1, HOST01, py "01/29/2026 23:59:59") ].

Definition path : list N := py "availability.csv".

(** The line of the specification: three quoted fields, a comma inside the
    third. *)
Definition quoted_line : list N :=
  dquote :: py "HOST01" ++ dquote :: comma :: dquote :: py "DomainX"
  ++ dquote :: comma :: dquote :: py "Jan 31, 2026 @ 12:38:00.504" ++ [dquote].

(** The three column names inside one pair of quotes. *)
Definition quoted_header : list N :=
  dquote :: py "Domain,Agent Name,Last Available Date" ++ [dquote].

Definition header : list N := py "Domain,Agent Name,Last Available Date".

(** Availability files: the header line, then the given lines. *)
Definition availability_file (lines : list (list N)) : list byte :=
  Model.file_of_lines (header :: lines).

Definition fs_quoted_line : gmap (list N) (list byte) :=
  {[ path := availability_file [quoted_line] ]}.

Definition fs_quoted_header : gmap (list N) (list byte) :=
  {[ path := Model.file_of_lines [quoted_header] ]}.

Definition fs_zero_bytes : gmap (list N) (list byte) := {[ path := [] ]}.

(** A row with nothing after the second comma, and one with two empty
    parts after it. *)
Definition fs_empty_date : gmap (list N) (list byte) :=
  {[ path := availability_file [py "d,a,"] ]}.

Definition fs_two_empty_parts : gmap (list N) (list byte) :=
  {[ path := availability_file [py "d,a,,"] ]}.

(** A row whose date is an empty pair of double quotes, with padding around
    the fields, ahead of a row with a date. *)
Definition quoted_empty_date_line : list N :=
  dquote :: py "d" ++ dquote :: py " , " ++ dquote :: py "a" ++ dquote
  :: py " , " ++ [dquote; dquote].

Definition quoted_empty_date_fields : list Spec.field :=
  [ Spec.mk_field [] Spec.DoubleQuoted (py "d") (py " ");
    Spec.mk_field (py " ") Spec.DoubleQuoted (py "a") (py " ");
    Spec.mk_field (py " ") Spec.DoubleQuoted [] [] ].

Definition fs_quoted_empty_date : gmap (list N) (list byte) :=
  {[ path := availability_file
               [quoted_empty_date_line;
                py "Domain1,HOST01,2026-01-31 12:00:00"] ]}.




(** Baseline files: a row with a domain and no second field, and a header
    with a space before the first column name. *)
Definition fs_short_row : gmap (list N) (list byte) :=
  {[ path := Model.file_of_lines
               [py "Domain,Agent Name"; py "Domain1,WIN-HOST01"; py "Domain1"] ]}.

Definition fs_padded_header : gmap (list N) (list byte) :=
  {[ path := Model.file_of_lines
               [py " Domain,Agent Name"; py "Domain1,WIN-HOST01"] ]}.

(** The entry of [Domain1] for [baseline] and [index] when the clock reads
    [noon]: [HOST01] is available, the two others are not. *)
Definition entry : domain_results :=
  Spec.classify_domain_at index noon Domain1 {[ HOST01; HOST02; HOST03 ]}.

(** [index], and a timestamp for an agent the baseline does not have. *)
Definition index_with_stranger : gmap (list N * list N) Z :=
  <[ (py "GHOST", Domain1) := noon ]> index.

(** The same entry one microsecond later: [HOST01] is past the 24 hours. *)
Definition entry_later : domain_results :=
  Spec.classify_domain_at index (noon + 1) Domain1 {[ HOST01; HOST02; HOST03 ]}.

(** A baseline file with two agents, whitespace around one name and an
    empty line between the rows. *)
Definition fs_baseline : gmap (list N) (list byte) :=
  {[ path := Model.file_of_lines
               [py "Domain,Agent Name"; py "Domain1, WIN-HOST01 "; [];
                py "Domain1,WIN-HOST02"] ]}.

(** The text of a file with the given lines. *)
Definition text_of_lines (lines : list (list N)) : list N :=
  flat_map (fun l => l ++ [10%N]) lines.

(** An availability file whose fourth line has two fields only; the third
    line is blank. *)
Definition lines_with_short_row : list (list N) :=
  [header; py "Domain1,WIN-HOST01,2026-01-31 12:00:00"; py "  ";
   py "Domain1,WIN-HOST02"].

Definition fs_short_availability_row : gmap (list N) (list byte) :=
  {[ path := Model.file_of_lines lines_with_short_row ]}.

(** The file [main] writes when no availability file is given for an
    operating system: the header alone. *)
Definition fs_placeholder : gmap (list N) (list byte) :=
  {[ path := availability_file [] ]}.

(** A database with one old Windows row and one Linux row, and what it is
    after [fs_baseline] has been loaded as the Windows baseline. *)
Definition db_old : Store.database :=
  Store.mk_database [(py "Old", py "OLD-HOST", py "Windows")]
    [(py "Domain1", py "LIN-HOST01", py "Linux")].

Definition db_loaded : Store.database :=
  Store.mk_database
    [(Domain1, HOST01, py "Windows"); (Domain1, HOST02, py "Windows")]
    [(py "Domain1", py "LIN-HOST01", py "Linux")].

(** A valid baseline file with the same row twice. *)
Definition fs_duplicate_rows : gmap (list N) (list byte) :=
  {[ path := Model.file_of_lines
               [py "Domain,Agent Name"; py "Domain1,WIN-HOST01";
                py "Domain1,WIN-HOST01"] ]}.

(** Availability files for the two operating systems: one Windows agent seen
    an hour before [noon], and the header alone for Linux; and the results
    for [db_loaded] when the clock reads [noon]. *)
Definition windows_csv : list N := py "windows.csv".
Definition linux_csv : list N := py "linux.csv".

Definition fs_feeds : gmap (list N) (list byte) :=
  {[ windows_csv :=
       availability_file [py "Domain1,WIN-HOST01,2026-01-31 11:00:00"];
     linux_csv := availability_file [] ]}.

Definition windows_results : gmap (list N) domain_results :=
  Spec.classify {[ Domain1 := {[ HOST01; HOST02 ]} ]}
    {[ (HOST01, Domain1) := noon - timedelta_hours 1 ]} noon.

Definition linux_results : gmap (list N) domain_results :=
  Spec.classify {[ py "Domain1" := {[ py "LIN-HOST01" ]} ]} ∅ noon.

(** A baseline file whose fifth line has no agent name; its second and
    fourth lines are empty. *)
Definition lines_baseline_gaps : list (list N) :=
  [py "Domain,Agent Name"; []; py "Domain1,WIN-HOST01"; []; py "Domain1,"].

Definition fs_baseline_gaps : gmap (list N) (list byte) :=
  {[ path := Model.file_of_lines lines_baseline_gaps ]}.

End Example.

(** * Properties *)

(** ** The classification loops *)

Lemma geb_bool_decide (x y : Z) : (x >=? y) = bool_decide (y ≤ x).
Proof.
  rewrite Z.geb_leb.
  destruct (Z.leb_spec y x); symmetry;
    [by apply bool_decide_eq_true | apply bool_decide_eq_false; lia].
Qed.

Section Classification.

Context (clock : nat -> Z) (availability_map : gmap (list N * list N) Z).
Context (domain : list N).

Abbreviation agents_loop := (fold_left (classify_agent clock availability_map domain)).

Lemma classify_agent_absent r n a :
  availability_map !! (a, domain) = None ->
  classify_agent clock availability_map domain (r, n) a =
  (mk_domain_results (total r) (available r) ({[a]} ∪ not_available r)
     (last_available_dates r), n).
Proof. intros H. unfold classify_agent. by rewrite H. Qed.

Lemma classify_agent_present r n a ts :
  availability_map !! (a, domain) = Some ts ->
  classify_agent clock availability_map domain (r, n) a =
  if ts >=? clock n - timedelta_hours 24 then
    (mk_domain_results (total r) ({[a]} ∪ available r) (not_available r)
       (<[a := ts]> (last_available_dates r)), S n)
  else
    (mk_domain_results (total r) (available r) ({[a]} ∪ not_available r)
       (<[a := ts]> (last_available_dates r)), S n).
Proof. intros H. unfold classify_agent, is_within_last_24_hours. by rewrite H. Qed.

(** What one pass of the inner loop does to the result so far. *)
Lemma classify_agent_step r n a r1 n1 :
  classify_agent clock availability_map domain (r, n) a = (r1, n1) ->
  total r1 = total r ∧ (n ≤ n1 ≤ S n)%nat ∧
  available r1 ∪ not_available r1 = available r ∪ not_available r ∪ {[a]} ∧
  (∀ b, b ≠ a ->
     (b ∈ available r1 ↔ b ∈ available r) ∧
     (b ∈ not_available r1 ↔ b ∈ not_available r) ∧
     last_available_dates r1 !! b = last_available_dates r !! b) ∧
  (a ∈ available r1 ∧ (a ∈ not_available r1 ↔ a ∈ not_available r) ∨
   a ∈ not_available r1 ∧ (a ∈ available r1 ↔ a ∈ available r)).
Proof.
  destruct (availability_map !! (a, domain)) as [ts|] eqn:E.
  - rewrite (classify_agent_present _ _ _ _ E).
    destruct (ts >=? _); intros [= <- <-]; simpl;
      (split; [done|]); (split; [lia|]); (split; [set_solver|]);
      (split; [intros b Hb; rewrite lookup_insert_ne by done; set_solver|]);
      set_solver.
  - rewrite (classify_agent_absent _ _ _ E). intros [= <- <-]; simpl.
    repeat split; try lia; try set_solver.
Qed.

Lemma agents_loop_frame l : ∀ r n r' n',
  agents_loop l (r, n) = (r', n') ->
  total r' = total r ∧ (n ≤ n')%nat ∧
  ∀ b, b ∉ l ->
    (b ∈ available r' ↔ b ∈ available r) ∧
    (b ∈ not_available r' ↔ b ∈ not_available r) ∧
    last_available_dates r' !! b = last_available_dates r !! b.
Proof.
  induction l as [|a l IH]; intros r n r' n'; cbn [fold_left].
  - intros [= <- <-]. repeat split; auto.
  - destruct (classify_agent clock availability_map domain (r, n) a)
      as [r1 n1] eqn:E1.
    intros H. apply IH in H as (Ht & Hn & Hb).
    apply classify_agent_step in E1 as (Ht1 & Hn1 & _ & Hb1 & _).
    split; [congruence|]. split; [lia|].
    intros b Hin. apply not_elem_of_cons in Hin as [Hne Hin].
    destruct (Hb b Hin) as (? & ? & ?), (Hb1 b Hne) as (? & ? & ?).
    repeat split; try tauto; congruence.
Qed.

Lemma agents_loop_cover l : ∀ r n r' n',
  agents_loop l (r, n) = (r', n') ->
  available r' ∪ not_available r' =
  available r ∪ not_available r ∪ list_to_set l.
Proof.
  induction l as [|a l IH]; intros r n r' n'; cbn [fold_left].
  - intros [= <- <-]. set_solver.
  - destruct (classify_agent clock availability_map domain (r, n) a)
      as [r1 n1] eqn:E1.
    intros H. apply IH in H.
    apply classify_agent_step in E1 as (_ & _ & Hc & _).
    rewrite H, Hc. set_solver.
Qed.

Lemma agents_loop_disjoint l : ∀ r n r' n',
  NoDup l ->
  (∀ a, a ∈ l -> a ∉ available r ∪ not_available r) ->
  available r ## not_available r ->
  agents_loop l (r, n) = (r', n') ->
  available r' ## not_available r'.
Proof.
  induction l as [|a l IH]; intros r n r' n' Hnd Hfresh Hdisj; cbn [fold_left].
  - by intros [= <- <-].
  - destruct (classify_agent clock availability_map domain (r, n) a)
      as [r1 n1] eqn:E1.
    apply NoDup_cons in Hnd as [Ha Hnd].
    apply classify_agent_step in E1 as (_ & _ & Hc & Hb1 & Hone).
    apply IH; [done| |].
    + intros b Hb. rewrite Hc.
      assert (b ≠ a) by (intros ->; done).
      specialize (Hfresh b (list_elem_of_further _ _ _ Hb)). set_solver.
    + specialize (Hfresh a (list_elem_of_here _ _)).
      intros b Hb1' Hb2'. destruct (decide (b = a)) as [->|Hne].
      * set_solver.
      * destruct (Hb1 b Hne) as (? & ? & _). set_solver.
Qed.


(** The verdict on one agent of the list: it is taken against one reading
    of the clock, made during the loop. *)
Lemma agents_loop_verdict l : ∀ r n r' n' a,
  NoDup l -> a ∈ l ->
  agents_loop l (r, n) = (r', n') ->
  match availability_map !! (a, domain) with
  | None =>
      a ∈ not_available r' ∧ (a ∈ available r' ↔ a ∈ available r) ∧
      last_available_dates r' !! a = last_available_dates r !! a
  | Some ts =>
      ∃ k, (n ≤ k < n')%nat ∧ last_available_dates r' !! a = Some ts ∧
        if ts >=? clock k - timedelta_hours 24
        then a ∈ available r' ∧ (a ∈ not_available r' ↔ a ∈ not_available r)
        else a ∈ not_available r' ∧ (a ∈ available r' ↔ a ∈ available r)
  end.
Proof.
  induction l as [|b l IH]; intros r n r' n' a Hnd Hin; cbn [fold_left].
  - by apply elem_of_nil in Hin.
  - destruct (classify_agent clock availability_map domain (r, n) b)
      as [r1 n1] eqn:E1.
    apply NoDup_cons in Hnd as [Hb Hnd]. intros H.
    apply elem_of_cons in Hin as [->|Hin].
    + (* the agent is the one this pass looks at *)
      apply agents_loop_frame in H as (_ & Hn & Hfr).
      destruct (Hfr b Hb) as (Hav & Hnav & Hlast). clear Hfr.
      destruct (availability_map !! (b, domain)) as [ts|] eqn:E.
      * rewrite (classify_agent_present _ _ _ _ E) in E1.
        exists n. destruct (ts >=? clock n - timedelta_hours 24);
          injection E1 as <- <-; simpl in *;
          (split; [lia|]); rewrite Hlast, lookup_insert_eq;
          (split; [done|]); set_solver.
      * rewrite (classify_agent_absent _ _ _ E) in E1.
        injection E1 as <- <-; simpl in *. set_solver.
    + (* the agent comes later: this pass leaves it alone *)
      assert (a ≠ b) as Hne by (intros ->; done).
      apply classify_agent_step in E1 as (_ & Hn1 & _ & Hb1 & _).
      destruct (Hb1 a Hne) as (Hav & Hnav & Hlast).
      specialize (IH r1 n1 r' n' a Hnd Hin H).
      destruct (availability_map !! (a, domain)) as [ts|].
      * destruct IH as (k & Hk & Hl & Hv). exists k.
        split; [lia|]. split; [done|].
        destruct (ts >=? _); naive_solver.
      * rewrite <- Hlast. naive_solver.
Qed.

End Classification.

Section Domains.

Context (clock : nat -> Z) (availability_map : gmap (list N * list N) Z).

Abbreviation domains_loop := (fold_left (classify_domain clock availability_map)).

Lemma classify_domain_eq results n d agents :
  classify_domain clock availability_map (results, n) (d, agents) =
  (<[d := (fold_left (classify_agent clock availability_map d)
             (elements agents) (mk_domain_results (size agents) ∅ ∅ ∅, n)).1]>
     results,
   (fold_left (classify_agent clock availability_map d)
      (elements agents) (mk_domain_results (size agents) ∅ ∅ ∅, n)).2).
Proof. unfold classify_domain. by destruct (fold_left _ _ _). Qed.

(** The outer loop: the entry of a domain is the outcome of the inner loop
    run on its agents, from some number of clock readings on. *)
Lemma domains_loop_lookup l : ∀ results n results' n',
  NoDup l.*1 ->
  domains_loop l (results, n) = (results', n') ->
  (n ≤ n')%nat ∧
  (∀ d, d ∉ l.*1 -> results' !! d = results !! d) ∧
  (∀ d agents, (d, agents) ∈ l ->
     ∃ n1 r n2,
       (n ≤ n1 ∧ n2 ≤ n')%nat ∧
       fold_left (classify_agent clock availability_map d) (elements agents)
         (mk_domain_results (size agents) ∅ ∅ ∅, n1) = (r, n2) ∧
       results' !! d = Some r).
Proof.
  induction l as [|[d0 agents0] l IH]; intros results n results' n' Hnd;
    cbn [fold_left].
  - intros [= <- <-]. split; [done|]. split; [done|].
    intros d agents Hin. by apply elem_of_nil in Hin.
  - rewrite classify_domain_eq.
    destruct (fold_left (classify_agent clock availability_map d0) _ _)
      as [r0 n0] eqn:E0. simpl.
    rewrite fmap_cons in Hnd. apply NoDup_cons in Hnd as [Hd0 Hnd].
    simpl in Hd0.
    intros H. apply (IH _ _ _ _ Hnd) in H as (Hn & Hout & Hin).
    pose proof (agents_loop_frame _ _ _ _ _ _ _ _ E0) as (_ & Hn0 & _).
    split; [lia|]. split.
    + intros d Hd.
      apply not_elem_of_cons in Hd as [Hne Hd].
      rewrite (Hout d Hd). simpl in Hne. by rewrite lookup_insert_ne.
    + intros d agents Hmem. apply elem_of_cons in Hmem as [[= -> ->]|Hmem].
      * exists n, r0, n0. split; [lia|]. split; [done|].
        rewrite (Hout d0 Hd0). apply lookup_insert_eq.
      * destruct (Hin d agents Hmem) as (n1 & r & n2 & Hle & Hr & Hl).
        exists n1, r, n2. split; [lia|]. done.
Qed.

(** The entries of the result of [calculate_availability]. *)
Lemma calculate_availability_lookup baseline_agents n d :
  match baseline_agents !! d with
  | None => (calculate_availability clock baseline_agents availability_map n).1 !! d = None
  | Some agents =>
      ∃ n1 r n2,
        (n ≤ n1 ∧
         n2 ≤ (calculate_availability clock baseline_agents availability_map n).2)%nat ∧
        fold_left (classify_agent clock availability_map d) (elements agents)
          (mk_domain_results (size agents) ∅ ∅ ∅, n1) = (r, n2) ∧
        (calculate_availability clock baseline_agents availability_map n).1 !! d
        = Some r
  end.
Proof.
  unfold calculate_availability.
  destruct (fold_left _ _ _) as [results' n'] eqn:E.
  apply domains_loop_lookup in E as (_ & Hout & Hin);
    [|apply NoDup_fst_map_to_list].
  destruct (baseline_agents !! d) as [agents|] eqn:Hd; simpl.
  - apply Hin. by apply elem_of_map_to_list.
  - rewrite Hout; [done|].
    intros Hmem. apply list_elem_of_fmap in Hmem as ([d' agents] & -> & Hmem).
    apply elem_of_map_to_list in Hmem. simpl in Hd. congruence.
Qed.

End Domains.

(** The inner loop, run on the agents of a domain from the empty result:
    it sorts them into two disjoint sets. *)
Lemma agents_loop_partition
    (clock : nat -> Z) (availability_map : gmap (list N * list N) Z)
    (d : list N) (agents : gset (list N)) (n : nat) (r : domain_results)
    (n' : nat) :
  fold_left (classify_agent clock availability_map d) (elements agents)
    (mk_domain_results (size agents) ∅ ∅ ∅, n) = (r, n') ->
  available r ∪ not_available r = agents ∧
  available r ## not_available r ∧
  total r = size agents.
Proof.
  intros Hloop.
  pose proof (agents_loop_cover _ _ _ _ _ _ _ _ Hloop) as Hcover.
  simpl in Hcover. rewrite list_to_set_elements_L in Hcover.
  split; [rewrite Hcover; set_solver|]. split.
  - apply (agents_loop_disjoint _ _ _ _ _ _ _ _ (NoDup_elements agents))
      in Hloop; [done| |]; simpl; set_solver.
  - by apply agents_loop_frame in Hloop as (Htotal & _ & _).
Qed.

(** C1.  Whatever the baseline mapping, the availability index and the
    clock, the result of [calculate_availability] has an entry exactly for
    the domains of the baseline; in the entry of a domain, [available] and
    [not_available] are disjoint, their union is the baseline set of the
    domain (so every baseline agent is in exactly one of them), and [total]
    is the sum of their sizes. *)
Theorem calculate_availability_partition
    (clock : nat -> Z) (baseline_agents : gmap (list N) (gset (list N)))
    (availability_map : gmap (list N * list N) Z) (calls : nat) (d : list N) :
  match baseline_agents !! d with
  | None =>
      (calculate_availability clock baseline_agents availability_map calls).1 !! d
      = None
  | Some agents =>
      ∃ r,
        (calculate_availability clock baseline_agents availability_map calls).1 !! d
        = Some r ∧
        available r ∪ not_available r = agents ∧
        available r ## not_available r ∧
        (∀ a, a ∈ agents ->
           a ∈ available r ∧ a ∉ not_available r ∨
           a ∈ not_available r ∧ a ∉ available r) ∧
        total r = (size (available r) + size (not_available r))%nat
  end.
Proof.
  pose proof (calculate_availability_lookup clock availability_map
                baseline_agents calls d) as H.
  destruct (baseline_agents !! d) as [agents|]; [|done].
  destruct H as (n1 & r & n2 & _ & Hloop & Hr). exists r.
  apply agents_loop_partition in Hloop as (Hunion & Hdisj & Htotal).
  split; [done|]. split; [done|]. split; [done|]. split.
  - intros a Ha. rewrite <- Hunion in Ha. set_solver.
  - rewrite Htotal, <- Hunion. by apply size_union.
Qed.

(** C2.  The freshness boundary is inclusive.  An agent of the baseline that
    the index has a timestamp [ts] for is checked against one reading
    [now = clock k] of the clock, made during the call: it is in [available]
    exactly when [ts >= now - 24h], in [not_available] exactly when
    [ts < now - 24h], and so in [available] when [ts] is [now - 24h] itself;
    its timestamp is recorded either way. *)
Theorem freshness_boundary_inclusive
    (clock : nat -> Z) (baseline_agents : gmap (list N) (gset (list N)))
    (availability_map : gmap (list N * list N) Z) (calls : nat)
    (d : list N) (agents : gset (list N)) (a : list N) (ts : Z) :
  baseline_agents !! d = Some agents ->
  a ∈ agents ->
  availability_map !! (a, d) = Some ts ->
  ∃ r k,
    (calculate_availability clock baseline_agents availability_map calls).1 !! d
    = Some r ∧
    (calls ≤ k
     < (calculate_availability clock baseline_agents availability_map calls).2)%nat ∧
    is_within_last_24_hours clock ts k
    = (bool_decide (clock k - timedelta_hours 24 ≤ ts), S k) ∧
    (a ∈ available r ↔ clock k - timedelta_hours 24 ≤ ts) ∧
    (a ∈ not_available r ↔ ts < clock k - timedelta_hours 24) ∧
    (ts = clock k - timedelta_hours 24 -> a ∈ available r) ∧
    last_available_dates r !! a = Some ts.
Proof.
  intros Hd Ha Hts.
  pose proof (calculate_availability_lookup clock availability_map
                baseline_agents calls d) as H.
  rewrite Hd in H.
  destruct H as (n1 & r & n2 & Hle & Hloop & Hr).
  pose proof (agents_loop_partition _ _ _ _ _ _ _ Hloop) as (_ & Hdisj & _).
  eapply (agents_loop_verdict _ _ _ _ _ _ _ _ a) in Hloop;
    [|apply NoDup_elements|by apply elem_of_elements].
  rewrite Hts in Hloop. destruct Hloop as (k & Hk & Hlast & Hv).
  exists r, k. split; [done|]. split; [lia|].
  rewrite geb_bool_decide in Hv. split.
  { unfold is_within_last_24_hours. by rewrite geb_bool_decide. }
  case_bool_decide as E.
  - destruct Hv as [Hav _].
    split; [done|]. split; [|done].
    split; [|lia]. intros Hn. exfalso. by apply (Hdisj a).
  - destruct Hv as [Hnav _].
    split; [|split; [|split; [lia|done]]].
    + split; [|lia]. intros Hav. exfalso. by apply (Hdisj a).
    + split; [lia|done].
Qed.

Section Steady.

Context (clock : nat -> Z) (availability_map : gmap (list N * list N) Z).
Context (now : Z).

(** The inner loop when every reading it makes is [now]. *)
Lemma agents_loop_steady d l r n n' (size0 : nat) :
  (∀ k, (n ≤ k)%nat -> clock k = now) ->
  NoDup l ->
  fold_left (classify_agent clock availability_map d) l
    (mk_domain_results size0 ∅ ∅ ∅, n) = (r, n') ->
  ∀ a,
    (a ∈ available r ↔
     a ∈ l ∧ Spec.fresh_at availability_map now d a = true) ∧
    (a ∈ not_available r ↔
     a ∈ l ∧ Spec.fresh_at availability_map now d a = false) ∧
    last_available_dates r !! a =
    (if decide (a ∈ l) then availability_map !! (a, d) else None).
Proof.
  intros Hnow Hnd Hloop a. unfold Spec.fresh_at.
  destruct (decide (a ∈ l)) as [Hin|Hout].
  - pose proof (agents_loop_verdict _ _ _ _ _ _ _ _ a Hnd Hin Hloop) as Hv.
    simpl in Hv.
    destruct (availability_map !! (a, d)) as [ts|].
    + destruct Hv as (k & Hk & Hlast & Hv).
      rewrite geb_bool_decide, Hnow in Hv by lia.
      destruct (bool_decide (now - timedelta_hours 24 ≤ ts));
        set_solver.
    + set_solver.
  - apply agents_loop_frame in Hloop as (_ & _ & Hfr).
    destruct (Hfr a Hout) as (Hav & Hnav & Hlast). simpl in *.
    rewrite Hlast, lookup_empty. set_solver.
Qed.

Lemma classify_domain_steady d agents r n n' :
  (∀ k, (n ≤ k)%nat -> clock k = now) ->
  fold_left (classify_agent clock availability_map d) (elements agents)
    (mk_domain_results (size agents) ∅ ∅ ∅, n) = (r, n') ->
  r = Spec.classify_domain_at availability_map now d agents.
Proof.
  intros Hnow Hloop.
  pose proof (agents_loop_steady _ _ _ _ _ _ Hnow (NoDup_elements agents) Hloop)
    as Hall.
  apply agents_loop_frame in Hloop as (Htotal & _ & _). simpl in Htotal.
  destruct r as [t av nav last]. simpl in *. unfold Spec.classify_domain_at.
  f_equal.
  - done.
  - apply set_eq. intros a. destruct (Hall a) as (-> & _ & _).
    rewrite elem_of_filter, elem_of_elements. tauto.
  - apply set_eq. intros a. destruct (Hall a) as (_ & -> & _).
    rewrite elem_of_filter, elem_of_elements. tauto.
  - apply map_eq. intros a. destruct (Hall a) as (_ & _ & ->).
    rewrite map_lookup_imap, lookup_gset_to_gmap.
    destruct (decide (a ∈ elements agents)) as [Hin|Hout].
    + apply elem_of_elements in Hin. by rewrite option_guard_True.
    + rewrite elem_of_elements in Hout. by rewrite option_guard_False.
Qed.

Lemma calculate_availability_steady baseline_agents calls :
  (∀ k, (calls ≤ k)%nat -> clock k = now) ->
  (calculate_availability clock baseline_agents availability_map calls).1
  = Spec.classify baseline_agents availability_map now.
Proof.
  intros Hnow. apply map_eq. intros d.
  pose proof (calculate_availability_lookup clock availability_map
                baseline_agents calls d) as H.
  unfold Spec.classify. rewrite map_lookup_imap.
  destruct (baseline_agents !! d) as [agents|]; simpl; [|done].
  destruct H as (n1 & r & n2 & Hle & Hloop & ->). f_equal.
  eapply classify_domain_steady; [|exact Hloop].
  intros k Hk. apply Hnow. lia.
Qed.

End Steady.

(** ** Whatever the order of visit *)

Section Visiting.

Context (visit : list N -> gset (list N) -> list (list N)).
Context (clock : nat -> Z) (availability_map : gmap (list N * list N) Z).

Lemma classify_domain_visiting_eq results n d agents :
  classify_domain_visiting visit clock availability_map (results, n) (d, agents)
  = (<[d := (fold_left (classify_agent clock availability_map d)
               (visit d agents) (mk_domain_results (size agents) ∅ ∅ ∅, n)).1]>
       results,
     (fold_left (classify_agent clock availability_map d)
        (visit d agents) (mk_domain_results (size agents) ∅ ∅ ∅, n)).2).
Proof. unfold classify_domain_visiting. by destruct (fold_left _ _ _). Qed.

Lemma domains_loop_visiting_lookup items : ∀ results n results' n',
  NoDup items.*1 ->
  fold_left (classify_domain_visiting visit clock availability_map) items
    (results, n) = (results', n') ->
  (n ≤ n')%nat ∧
  (∀ d, d ∉ items.*1 -> results' !! d = results !! d) ∧
  (∀ d agents, (d, agents) ∈ items ->
     ∃ n1 r n2,
       (n ≤ n1 ∧ n2 ≤ n')%nat ∧
       fold_left (classify_agent clock availability_map d) (visit d agents)
         (mk_domain_results (size agents) ∅ ∅ ∅, n1) = (r, n2) ∧
       results' !! d = Some r).
Proof.
  induction items as [|[d0 agents0] items IH];
    intros results n results' n' Hnd; cbn [fold_left].
  - intros [= <- <-]. split; [done|]. split; [done|].
    intros d agents Hin. by apply elem_of_nil in Hin.
  - rewrite classify_domain_visiting_eq.
    destruct (fold_left (classify_agent clock availability_map d0) _ _)
      as [r0 n0] eqn:E0. simpl.
    rewrite fmap_cons in Hnd. apply NoDup_cons in Hnd as [Hd0 Hnd].
    simpl in Hd0.
    intros H. apply (IH _ _ _ _ Hnd) in H as (Hn & Hout & Hin).
    pose proof (agents_loop_frame _ _ _ _ _ _ _ _ E0) as (_ & Hn0 & _).
    split; [lia|]. split.
    + intros d Hd. apply not_elem_of_cons in Hd as [Hne Hd].
      rewrite (Hout d Hd). by rewrite lookup_insert_ne.
    + intros d agents Hmem. apply elem_of_cons in Hmem as [[= -> ->]|Hmem].
      * exists n, r0, n0. split; [lia|]. split; [done|].
        rewrite (Hout d0 Hd0). apply lookup_insert_eq.
      * destruct (Hin d agents Hmem) as (n1 & r & n2 & Hle & Hr & Hl).
        exists n1, r, n2. split; [lia|]. done.
Qed.

(** The inner loop over any list that has each agent of the set once, when
    every reading it makes is [now]. *)
Lemma agents_loop_standing now d agents l r n n' :
  (∀ k, (n ≤ k)%nat -> clock k = now) ->
  l ≡ₚ elements agents ->
  fold_left (classify_agent clock availability_map d) l
    (mk_domain_results (size agents) ∅ ∅ ∅, n) = (r, n') ->
  r = Spec.classify_domain_at availability_map now d agents.
Proof.
  intros Hnow Hperm Hloop.
  assert (NoDup l) as Hnd by (rewrite Hperm; apply NoDup_elements).
  assert (∀ a, a ∈ l ↔ a ∈ agents) as Hmem
    by (intros a; by rewrite Hperm, elem_of_elements).
  pose proof (agents_loop_steady clock availability_map now _ _ _ _ _ _
                Hnow Hnd Hloop) as Hall.
  apply agents_loop_frame in Hloop as (Htotal & _ & _). simpl in Htotal.
  destruct r as [t av nav last]. simpl in *. unfold Spec.classify_domain_at.
  f_equal.
  - done.
  - apply set_eq. intros a. destruct (Hall a) as (-> & _ & _).
    rewrite elem_of_filter, Hmem. tauto.
  - apply set_eq. intros a. destruct (Hall a) as (_ & -> & _).
    rewrite elem_of_filter, Hmem. tauto.
  - apply map_eq. intros a. destruct (Hall a) as (_ & _ & ->).
    rewrite map_lookup_imap, lookup_gset_to_gmap.
    destruct (decide (a ∈ l)) as [Hin|Hout].
    + apply Hmem in Hin. by rewrite option_guard_True.
    + rewrite Hmem in Hout. by rewrite option_guard_False.
Qed.

End Visiting.

(** C4 (amended).  [calculate_availability] takes no [now]: it reads the clock
    itself, once for each indexed agent it meets, so its result depends on
    the readings and on the order in which the sets are gone through.  When
    every reading made during the call is [now], the result is the
    specification's [classify(baseline_sets, index, now)], in whatever
    order the domains are met and the agents of each set are visited. *)
Theorem classification_at_standing_clock
    (visit : list N -> gset (list N) -> list (list N))
    (items : list (list N * gset (list N)))
    (clock : nat -> Z) (baseline_agents : gmap (list N) (gset (list N)))
    (availability_map : gmap (list N * list N) Z) (calls : nat) (now : Z) :
  (∀ domain agents, visit domain agents ≡ₚ elements agents) ->
  items ≡ₚ map_to_list baseline_agents ->
  (∀ k, clock (calls + k)%nat = now) ->
  (calculate_availability_visiting visit items clock availability_map calls).1
  = Spec.classify baseline_agents availability_map now ∧
  calculate_availability clock baseline_agents availability_map calls
  = calculate_availability_visiting (λ _, elements)
      (map_to_list baseline_agents) clock availability_map calls.
Proof.
  intros Hvisit Hitems Hnow. split; [|reflexivity].
  unfold calculate_availability_visiting.
  destruct (fold_left _ items _) as [results n'] eqn:E. simpl.
  apply domains_loop_visiting_lookup in E as (_ & Hout & Hin);
    [|rewrite Hitems; apply NoDup_fst_map_to_list].
  apply map_eq. intros d. unfold Spec.classify. rewrite map_lookup_imap.
  destruct (baseline_agents !! d) as [agents|] eqn:Hd; simpl.
  - destruct (Hin d agents) as (n1 & r & n2 & Hle & Hloop & ->).
    { rewrite Hitems. by apply elem_of_map_to_list. }
    assert (∀ k, (n1 ≤ k)%nat -> clock k = now) as Hstanding.
    { intros k Hk. replace k with (calls + (k - calls))%nat by lia.
      apply Hnow. }
    f_equal. eauto using agents_loop_standing.
  - rewrite Hout; [done|]. rewrite Hitems.
    intros Hmem. apply list_elem_of_fmap in Hmem as ([d' agents] & -> & Hmem).
    apply elem_of_map_to_list in Hmem. simpl in Hd. congruence.
Qed.

Lemma classification_at_standing_clock_witness :
  (calculate_availability_visiting (λ _ agents, reverse (elements agents))
     (reverse (map_to_list Example.baseline)) (Model.steady Example.noon)
     Example.index 0).1
  = Spec.classify Example.baseline Example.index Example.noon ∧
  calculate_availability (Model.steady Example.noon) Example.baseline
    Example.index 0
  = calculate_availability_visiting (λ _, elements)
      (map_to_list Example.baseline) (Model.steady Example.noon)
      Example.index 0.
Proof.
  apply (classification_at_standing_clock
           (λ _ agents, reverse (elements agents))
           (reverse (map_to_list Example.baseline))
           (Model.steady Example.noon) Example.baseline Example.index 0
           Example.noon).
  - intros domain agents. apply reverse_Permutation.
  - apply reverse_Permutation.
  - intros k. reflexivity.
Defined.

(** C4, as stated, fails: on the same baseline sets and index, and started at
    the same instant, two calls whose clocks differ afterwards disagree. *)
Lemma classification_not_determined_by_now :
  Model.steady Example.noon 0%nat = Example.jumping 0%nat ∧
  (calculate_availability (Model.steady Example.noon) Example.baseline
     Example.index_noon 0).1
  ≠ (calculate_availability Example.jumping Example.baseline
       Example.index_noon 0).1.
Proof.
  split; [reflexivity|]. intros H.
  apply (f_equal (λ m, size <$> (available <$> m !! Example.Domain1))) in H.
  vm_compute in H. discriminate H.
Qed.

(** Nor do the readings of the clock fix the result: with the same clock, the
    same baseline sets and the same index, going through the set of agents in
    the opposite order gives another result (another agent meets the first
    reading). *)
Lemma classification_depends_on_order_of_visit :
  (calculate_availability_visiting (λ _, elements)
     (map_to_list Example.baseline) Example.jumping Example.index_noon 0).1
  ≠ (calculate_availability_visiting (λ _ agents, reverse (elements agents))
       (map_to_list Example.baseline) Example.jumping Example.index_noon 0).1.
Proof.
  intros H.
  apply (f_equal (λ m, elements <$> (available <$> m !! Example.Domain1))) in H.
  vm_compute in H. discriminate H.
Qed.

Lemma freshness_boundary_inclusive_witness :
  ∃ r k,
    (calculate_availability (Model.steady Example.noon) Example.baseline
       Example.index 0).1 !! Example.Domain1 = Some r ∧
    (0 ≤ k
     < (calculate_availability (Model.steady Example.noon) Example.baseline
          Example.index 0).2)%nat ∧
    is_within_last_24_hours (Model.steady Example.noon)
      (Example.noon - timedelta_hours 24) k
    = (bool_decide
         (Model.steady Example.noon k - timedelta_hours 24
          ≤ Example.noon - timedelta_hours 24), S k) ∧
    (Example.HOST01 ∈ available r ↔
     Model.steady Example.noon k - timedelta_hours 24
     ≤ Example.noon - timedelta_hours 24) ∧
    (Example.HOST01 ∈ not_available r ↔
     Example.noon - timedelta_hours 24
     < Model.steady Example.noon k - timedelta_hours 24) ∧
    (Example.noon - timedelta_hours 24
     = Model.steady Example.noon k - timedelta_hours 24 ->
     Example.HOST01 ∈ available r) ∧
    last_available_dates r !! Example.HOST01
    = Some (Example.noon - timedelta_hours 24).
Proof.
  apply (freshness_boundary_inclusive (Model.steady Example.noon)
           Example.baseline Example.index 0 Example.Domain1
           {[ Example.HOST01; Example.HOST02; Example.HOST03 ]}
           Example.HOST01 (Example.noon - timedelta_hours 24)).
  - reflexivity.
  - apply (bool_decide_unpack _). vm_compute. reflexivity.
  - vm_compute. reflexivity.
Defined.

(** ** The availability index *)

Lemma keep_most_recent_lookup (m : gmap (list N * list N) Z) key t key' :
  keep_most_recent m key t !! key' =
  if decide (key = key') then
    Some (match m !! key with Some seen => Z.max seen t | None => t end)
  else m !! key'.
Proof.
  unfold keep_most_recent.
  destruct (m !! key) as [seen|] eqn:E.
  - rewrite Z.gtb_ltb. destruct (Z.ltb_spec seen t).
    + rewrite lookup_insert. case_decide; [f_equal; lia|done].
    + case_decide as Hk; [subst key'; rewrite E; f_equal; lia|done].
  - rewrite lookup_insert. by case_decide.
Qed.

Lemma keep_most_recent_comm (m : gmap (list N * list N) Z) k1 t1 k2 t2 :
  keep_most_recent (keep_most_recent m k1 t1) k2 t2 =
  keep_most_recent (keep_most_recent m k2 t2) k1 t1.
Proof.
  apply map_eq. intros k. rewrite !keep_most_recent_lookup.
  repeat case_decide; subst; try done; try congruence;
    destruct (m !! _); f_equal; lia.
Qed.

Section Index.

Context (strptime : list N -> list N -> option Z).

Lemma availability_map_from_cons domain agent_name s rest m :
  availability_map_from strptime ((domain, agent_name, s) :: rest) m =
  match parse_available_date strptime s with
  | Ok t =>
      availability_map_from strptime rest
        (keep_most_recent m (agent_name, domain) t)
  | Raise e => Raise e
  end.
Proof. reflexivity. Qed.

(** The rows may come in any order. *)
Lemma availability_map_from_perm records records' :
  records ≡ₚ records' ->
  ∀ m0 m,
    availability_map_from strptime records m0 = Ok m ->
    availability_map_from strptime records' m0 = Ok m.
Proof.
  induction 1 as [|[[d a] s] l l' _ IH|[[d1 a1] s1] [[d2 a2] s2] l|l1 l2 l3 _ IH1 _ IH2];
    intros m0 m.
  - done.
  - rewrite !availability_map_from_cons.
    destruct (parse_available_date strptime s); [apply IH|done].
  - rewrite !availability_map_from_cons.
    destruct (parse_available_date strptime s1) as [t1|] eqn:P1;
      destruct (parse_available_date strptime s2) as [t2|] eqn:P2;
      rewrite ?availability_map_from_cons, ?P1, ?P2; try done.
    by rewrite keep_most_recent_comm.
  - intros H. by apply IH2, IH1.
Qed.

(** What the loop leaves under a key: the latest of what was there and of
    the timestamps of the rows with that key. *)
Lemma availability_map_from_latest records : ∀ m0 m,
  availability_map_from strptime records m0 = Ok m ->
  ∀ agent domain,
    match m !! (agent, domain) with
    | Some t =>
        (m0 !! (agent, domain) = Some t ∨
         ∃ s, (domain, agent, s) ∈ records ∧
              parse_available_date strptime s = Ok t) ∧
        (∀ t', m0 !! (agent, domain) = Some t' -> t' ≤ t) ∧
        (∀ s t', (domain, agent, s) ∈ records ->
                 parse_available_date strptime s = Ok t' -> t' ≤ t)
    | None =>
        m0 !! (agent, domain) = None ∧
        ∀ s, (domain, agent, s) ∉ records
    end.
Proof.
  induction records as [|[[d0 a0] s0] rest IH]; intros m0 m.
  - intros [= <-] agent domain.
    destruct (m0 !! (agent, domain)) as [t|] eqn:E.
    + split; [by left|]. split; [intros t' [= <-]; lia|].
      intros s t' Hin. by apply elem_of_nil in Hin.
    + split; [done|]. intros s Hin. by apply elem_of_nil in Hin.
  - rewrite availability_map_from_cons.
    destruct (parse_available_date strptime s0) as [t0|] eqn:P0; [|done].
    intros H agent domain. specialize (IH _ _ H agent domain).
    rewrite keep_most_recent_lookup in IH.
    destruct (m !! (agent, domain)) as [t|].
    + destruct IH as (Hfrom & Hold & Hrest).
      case_decide as Hk.
      * injection Hk as -> ->.
        assert (match m0 !! (agent, domain) with
                | Some seen => Z.max seen t0 | None => t0 end ≤ t) as Hmax
          by (apply Hold; done).
        split; [|split].
        -- destruct Hfrom as [[= Ht]|(s & Hin & Hs)].
           ++ destruct (m0 !! (agent, domain)) as [seen|].
              ** destruct (Z.max_spec seen t0) as [[_ Hm]|[_ Hm]];
                   rewrite Hm in Ht; subst t.
                 --- right. exists s0. split; [left|done].
                 --- by left.
              ** subst t. right. exists s0. split; [left|done].
           ++ right. exists s. split; [by right|done].
        -- intros t' Ht'. rewrite Ht' in Hmax. lia.
        -- intros s t' Hin Hs. apply elem_of_cons in Hin as [[= <-]|Hin].
           ++ assert (t' = t0) as -> by congruence.
              destruct (m0 !! (agent, domain)); lia.
           ++ by apply (Hrest s).
      * split; [|split].
        -- destruct Hfrom as [?|(s & Hin & Hs)]; [by left|].
           right. exists s. split; [by right|done].
        -- done.
        -- intros s t' Hin Hs. apply elem_of_cons in Hin as [[= <- <- <-]|Hin];
             [done|]. by apply (Hrest s).
    + destruct IH as [Hnone Hrest].
      case_decide as Hk; [done|]. split; [done|].
      intros s Hin. apply elem_of_cons in Hin as [[= <- <- <-]|Hin]; [done|].
      by apply (Hrest s).
Qed.

End Index.

(** C3.  When the index is built from a sequence of raw records, what it
    holds for a key [(agent, domain)] is the maximum of the resolved
    timestamps of the records with that key (and nothing for a key no record
    has), so the index is the same for every order of the records. *)
Theorem availability_index_keeps_maximum
    (strptime : list N -> list N -> option Z)
    (records : list (list N * list N * list N))
    (m : gmap (list N * list N) Z) :
  availability_map_from strptime records ∅ = Ok m ->
  (∀ agent domain,
     match m !! (agent, domain) with
     | Some t =>
         (∃ s, (domain, agent, s) ∈ records ∧
               parse_available_date strptime s = Ok t) ∧
         (∀ s t', (domain, agent, s) ∈ records ->
                  parse_available_date strptime s = Ok t' -> t' ≤ t)
     | None => ∀ s, (domain, agent, s) ∉ records
     end) ∧
  (∀ records', records ≡ₚ records' ->
     availability_map_from strptime records' ∅ = Ok m).
Proof.
  intros H. split.
  - intros agent domain.
    pose proof (availability_map_from_latest strptime _ _ _ H agent domain)
      as Hl.
    destruct (m !! (agent, domain)) as [t|].
    + destruct Hl as ([Hempty|Hfrom] & _ & Hmax).
      * by rewrite lookup_empty in Hempty.
      * done.
    + by destruct Hl.
  - intros records' Hperm. by apply (availability_map_from_perm _ _ _ Hperm).
Qed.

Lemma availability_index_keeps_maximum_witness :
  (∀ agent domain,
     match ({[ (Example.HOST01, Example.Domain1) := Example.noon ]}
              : gmap (list N * list N) Z) !! (agent, domain) with
     | Some t =>
         (∃ s, (domain, agent, s) ∈ Example.feed ∧
               parse_available_date Model.strptime s = Ok t) ∧
         (∀ s t', (domain, agent, s) ∈ Example.feed ->
                  parse_available_date Model.strptime s = Ok t' -> t' ≤ t)
     | None => ∀ s, (domain, agent, s) ∉ Example.feed
     end) ∧
  (∀ records', Example.feed ≡ₚ records' ->
     availability_map_from Model.strptime records' ∅
     = Ok {[ (Example.HOST01, Example.Domain1) := Example.noon ]}).
Proof.
  apply (availability_index_keeps_maximum Model.strptime Example.feed
           {[ (Example.HOST01, Example.Domain1) := Example.noon ]}).
  vm_compute. reflexivity.
Defined.

(** ** Splitting lines *)

(** Inside quotes nothing ends a part but the closing quote. *)
Lemma split_respecting_quotes_inside q : ∀ rest parts current,
  dquote ∉ q ->
  split_respecting_quotes (q ++ dquote :: rest) parts current true
  = split_respecting_quotes rest parts (current ++ q) false.
Proof.
  induction q as [|c q IH]; intros rest parts current Hq; simpl.
  - by rewrite app_nil_r.
  - apply not_elem_of_cons in Hq as [Hc Hq].
    destruct (N.eqb_spec c dquote) as [->|_]; [done|].
    rewrite andb_false_r, IH by done. by rewrite <- app_assoc.
Qed.

Lemma split_nonempty sep s : split sep s ≠ [].
Proof.
  destruct s as [|c r]; simpl; [done|].
  destruct (c =? sep)%N; [done|]. by destruct (split sep r).
Qed.

Lemma join_split sep s : join [sep] (split sep s) = s.
Proof.
  induction s as [|c r IH]; simpl; [done|].
  destruct (N.eqb_spec c sep) as [->|_].
  - pose proof (split_nonempty sep r).
    destruct (split sep r) as [|f fs] eqn:E; [done|].
    simpl in *. by rewrite IH.
  - destruct (split sep r) as [|f fs] eqn:E.
    + by destruct (split_nonempty sep r).
    + destruct fs; simpl in *; by rewrite <- IH.
Qed.

Lemma split_no_separator sep s t : t ∈ split sep s -> sep ∉ t.
Proof.
  revert t. induction s as [|c r IH]; simpl; intros t Ht.
  - apply list_elem_of_singleton in Ht as ->. apply not_elem_of_nil.
  - destruct (N.eqb_spec c sep) as [->|Hc].
    + apply elem_of_cons in Ht as [->|Ht]; [apply not_elem_of_nil|by apply IH].
    + destruct (split sep r) as [|f fs] eqn:E.
      * apply list_elem_of_singleton in Ht as ->.
        intros Hin. apply list_elem_of_singleton in Hin. congruence.
      * apply elem_of_cons in Ht as [->|Ht].
        -- apply not_elem_of_cons. split; [congruence|]. apply IH. by left.
        -- apply IH. by right.
Qed.

(** The line of the specification.  A stretch between double quotes is taken
    whole, commas and all, and its quotes are dropped; of the parts of any
    line that has at least three, the trimmed first is the domain, the
    trimmed second the agent name, and the trimmed rest, joined by a comma
    and a space, the date.  The specification's line has exactly three
    parts, and its date comes out as written, from the row and from a file
    that holds it. *)
Lemma availability_row_of_parts :
  (∀ q rest parts current,
     dquote ∉ q ->
     split_respecting_quotes (dquote :: q ++ dquote :: rest) parts current false
     = split_respecting_quotes rest parts (current ++ q) false) ∧
  (∀ csv_path row_num line,
     let parts := split_respecting_quotes line [] [] false in
     (3 ≤ length parts)%nat ->
     strip_quotes (nth 0 parts []) ≠ [] ->
     strip_quotes (nth 1 parts []) ≠ [] ->
     availability_row csv_path row_num line
     = Ok (strip_quotes (nth 0 parts []), strip_quotes (nth 1 parts []),
           join (py ", ") (map strip_quotes (drop 2 parts)))) ∧
  split_respecting_quotes Example.quoted_line [] [] false
  = [py "HOST01"; py "DomainX"; py "Jan 31, 2026 @ 12:38:00.504"] ∧
  (∀ csv_path row_num,
     availability_row csv_path row_num Example.quoted_line
     = Ok (py "HOST01", py "DomainX", py "Jan 31, 2026 @ 12:38:00.504")) ∧
  validate_availability_csv Example.fs_quoted_line Example.path
  = Ok [(py "HOST01", py "DomainX", py "Jan 31, 2026 @ 12:38:00.504")].
Proof.
  split; [|split; [|split; [|split]]].
  - intros q rest parts current Hq. cbn [split_respecting_quotes].
    rewrite N.eqb_refl. simpl negb. by apply split_respecting_quotes_inside.
  - intros csv_path row_num line parts Hlen Hdomain Hagent.
    unfold availability_row. fold parts.
    destruct (Nat.ltb_spec (length parts) 3); [lia|].
    destruct (strip_quotes (nth 1 parts [])); [done|].
    by destruct (strip_quotes (nth 0 parts [])).
  - vm_compute. reflexivity.
  - intros csv_path row_num. unfold availability_row.
    replace (split_respecting_quotes Example.quoted_line [] [] false)
      with [py "HOST01"; py "DomainX"; py "Jan 31, 2026 @ 12:38:00.504"]
      by (vm_compute; reflexivity).
    vm_compute. reflexivity.
  - vm_compute. reflexivity.
Qed.

(** C7, as stated, fails: the header with the three column names inside one
    pair of quotes is one token for the splitter of the data lines, which is
    not the expected header, while the program makes three columns of it
    and accepts the file. *)
Lemma availability_header_not_quote_aware :
  availability_headers Example.quoted_header
  ≠ Spec.availability_headers_quote_aware Example.quoted_header ∧
  length (Spec.availability_headers_quote_aware Example.quoted_header) = 1%nat ∧
  availability_headers Example.quoted_header = AVAILABILITY_COLUMNS ∧
  validate_availability_csv Example.fs_quoted_header Example.path = Ok [].
Proof.
  split; [|split; [|split]].
  - intros H. apply (f_equal length) in H. vm_compute in H. discriminate H.
  - vm_compute. reflexivity.
  - vm_compute. reflexivity.
  - vm_compute. reflexivity.
Qed.

(** C7 (amended).  The header line of an availability file, stripped, is cut
    at every comma, inside quotes or not: the columns are the tokens between
    the commas, each stripped of whitespace, the byte-order mark and quotes;
    the file is refused with [HeaderMismatch] exactly when the columns,
    stripped again and lower-cased, are not the three expected names. *)
Theorem availability_header_split_at_every_comma
    (fs : gmap (list N) (list byte)) (csv_path : list N)
    (content : list byte) (f first_line : list N) (data : list (list N)) :
  fs !! csv_path = Some content ->
  content ≠ [] ->
  read_text content = Ok f ->
  readlines f = first_line :: data ->
  ∃ tokens,
    join [comma] tokens = strip first_line ∧
    (∀ t, t ∈ tokens -> comma ∉ t) ∧
    availability_headers first_line = map strip_header tokens ∧
    validate_availability_csv fs csv_path =
    if decide (map (λ h, lower (strip_header h)) (map strip_header tokens)
               = [py "domain"; py "agent name"; py "last available date"])
    then availability_rows csv_path 2 data []
    else Raise (CSVValidationError
                  (HeaderMismatch csv_path AVAILABILITY_COLUMNS
                     (map strip_header tokens))).
Proof.
  intros Hfile Hcontent Hread Hlines.
  exists (split comma (strip first_line)).
  split; [apply join_split|]. split; [apply split_no_separator|].
  split; [done|].
  unfold validate_availability_csv. rewrite Hfile.
  destruct content as [|b content]; [done|].
  rewrite Hread. cbn [bind]. rewrite Hlines. reflexivity.
Qed.

Lemma availability_header_split_at_every_comma_witness :
  ∃ tokens,
    join [comma] tokens = strip (Example.quoted_header ++ [10%N]) ∧
    (∀ t, t ∈ tokens -> comma ∉ t) ∧
    availability_headers (Example.quoted_header ++ [10%N])
    = map strip_header tokens ∧
    validate_availability_csv Example.fs_quoted_header Example.path =
    if decide (map (λ h, lower (strip_header h)) (map strip_header tokens)
               = [py "domain"; py "agent name"; py "last available date"])
    then availability_rows Example.path 2 [] []
    else Raise (CSVValidationError
                  (HeaderMismatch Example.path AVAILABILITY_COLUMNS
                     (map strip_header tokens))).
Proof.
  apply (availability_header_split_at_every_comma Example.fs_quoted_header
           Example.path (Model.file_of_lines [Example.quoted_header])
           (Example.quoted_header ++ [10%N]) (Example.quoted_header ++ [10%N])
           []).
  - reflexivity.
  - vm_compute. discriminate.
  - vm_compute. reflexivity.
  - vm_compute. reflexivity.
Defined.

(** C8.  A file of zero bytes is no error for the availability validator,
    which returns the empty sequence, and is the [EmptyFile] error for the
    baseline validator. *)
Theorem zero_byte_file (fs : gmap (list N) (list byte)) (csv_path : list N) :
  fs !! csv_path = Some [] ->
  validate_availability_csv fs csv_path = Ok [] ∧
  validate_baseline_csv fs csv_path
  = Raise (CSVValidationError (EmptyFile csv_path)).
Proof.
  intros H. unfold validate_availability_csv, validate_baseline_csv.
  by rewrite H.
Qed.

Lemma zero_byte_file_witness :
  validate_availability_csv Example.fs_zero_bytes Example.path = Ok [] ∧
  validate_baseline_csv Example.fs_zero_bytes Example.path
  = Raise (CSVValidationError (EmptyFile Example.path)).
Proof.
  apply (zero_byte_file Example.fs_zero_bytes Example.path). reflexivity.
Defined.

(** ** Date resolution *)

Section Dates.

Context (strptime : list N -> list N -> option Z).

Lemma try_formats_first date_str formats : ∀ i fmt t,
  formats !! i = Some fmt ->
  strptime date_str fmt = Some t ->
  (∀ j fmt', (j < i)%nat -> formats !! j = Some fmt' ->
             strptime date_str fmt' = None) ->
  try_formats strptime date_str formats = Some t.
Proof.
  induction formats as [|f formats IH]; intros i fmt t Hi Ht Hbefore.
  - by rewrite lookup_nil in Hi.
  - destruct i as [|i]; simpl in *.
    + injection Hi as ->. by rewrite Ht.
    + rewrite (Hbefore 0%nat f) by (done || lia).
      apply (IH i fmt t Hi Ht). intros j fmt' Hj Hl.
      apply (Hbefore (S j) fmt'); [lia|done].
Qed.

Lemma try_formats_none date_str formats :
  (∀ fmt, fmt ∈ formats -> strptime date_str fmt = None) ->
  try_formats strptime date_str formats = None.
Proof.
  induction formats as [|f formats IH]; intros Hall; simpl; [done|].
  rewrite (Hall f) by left. apply IH. intros fmt Hin. apply Hall. by right.
Qed.

End Dates.

(** C6 (amended).  The eight formats are tried in the canonical order on the
    input trimmed of surrounding whitespace: the result is the instant of the
    first format that accepts it, and when none does the call fails with
    [InvalidDateFormat] carrying the trimmed input. *)
Theorem parse_available_date_first_match
    (strptime : list N -> list N -> option Z) (date_str : list N) :
  date_formats
  = [ py "%Y-%m-%d %H:%M:%S"; py "%b %d, %Y @ %H:%M:%S.%f";
      py "%b %d, %Y @ %H:%M:%S"; py "%B %d, %Y @ %H:%M:%S.%f";
      py "%B %d, %Y @ %H:%M:%S"; py "%d-%m-%Y %H:%M:%S";
      py "%m/%d/%Y %H:%M:%S"; py "%Y/%m/%d %H:%M:%S" ] ∧
  (∀ i fmt t,
     date_formats !! i = Some fmt ->
     strptime (strip date_str) fmt = Some t ->
     (∀ j fmt', (j < i)%nat -> date_formats !! j = Some fmt' ->
                strptime (strip date_str) fmt' = None) ->
     parse_available_date strptime date_str = Ok t) ∧
  ((∀ fmt, fmt ∈ date_formats -> strptime (strip date_str) fmt = None) ->
   parse_available_date strptime date_str
   = Raise (CSVValidationError (InvalidDateFormat (strip date_str)))).
Proof.
  split; [reflexivity|]. split.
  - intros i fmt t Hi Ht Hbefore. unfold parse_available_date.
    by rewrite (try_formats_first strptime _ _ i fmt t Hi Ht Hbefore).
  - intros Hnone. unfold parse_available_date.
    by rewrite (try_formats_none strptime _ _ Hnone).
Qed.

(** C6, as stated, fails: the input made of a comma and a space matches none
    of the formats, and the error carries the comma alone.  The availability
    validator hands this very string over for the row [d,a,,]. *)
Lemma invalid_date_error_carries_trimmed_string :
  (∀ fmt, fmt ∈ date_formats -> Model.strptime (py ", ") fmt = None) ∧
  parse_available_date Model.strptime (py ", ")
  = Raise (CSVValidationError (InvalidDateFormat (py ","))) ∧
  parse_available_date Model.strptime (py ", ")
  ≠ Raise (CSVValidationError (InvalidDateFormat (py ", "))) ∧
  validate_availability_csv Example.fs_two_empty_parts Example.path
  = Ok [(py "d", py "a", py ", ")].
Proof.
  split; [|split; [|split]].
  - intros fmt Hin.
    repeat (apply elem_of_cons in Hin as [->|Hin]; [vm_compute; reflexivity|]).
    by apply elem_of_nil in Hin.
  - vm_compute. reflexivity.
  - vm_compute. discriminate.
  - vm_compute. reflexivity.
Qed.

(** C9, at the failing inputs.  A baseline row with fewer fields than the
    header makes the validator raise [AttributeError], and a header with a
    space before [Domain] passes the header check and makes the first row
    raise [KeyError]: neither is a [CSVValidationError]. *)
Theorem baseline_short_row_raises_attribute_error :
  validate_baseline_csv Example.fs_short_row Example.path
  = Raise AttributeError ∧
  is_validation_error
    (validate_baseline_csv Example.fs_short_row Example.path) = false ∧
  validate_baseline_csv Example.fs_padded_header Example.path
  = Raise (KeyError (py "Domain")) ∧
  is_validation_error
    (validate_baseline_csv Example.fs_padded_header Example.path) = false.
Proof. repeat split; vm_compute; reflexivity. Qed.

(** ** More on the classification *)

(** X1.  In the entry of a domain, [total] is the size of the baseline set
    and [last_available_dates] has an entry exactly for the baseline agents
    the index has, the indexed timestamp: whatever the clock reads and
    however the agent is classified. *)
Theorem last_available_dates_exact
    (clock : nat -> Z) (baseline_agents : gmap (list N) (gset (list N)))
    (availability_map : gmap (list N * list N) Z) (calls : nat)
    (d : list N) (agents : gset (list N)) (r : domain_results) :
  baseline_agents !! d = Some agents ->
  (calculate_availability clock baseline_agents availability_map calls).1 !! d
  = Some r ->
  total r = size agents ∧
  ∀ a, last_available_dates r !! a
       = if decide (a ∈ agents) then availability_map !! (a, d) else None.
Proof.
  intros Hd Hr.
  pose proof (calculate_availability_lookup clock availability_map
                baseline_agents calls d) as H.
  rewrite Hd in H. destruct H as (n1 & r' & n2 & _ & Hloop & Hr').
  assert (r' = r) as -> by congruence.
  split; [by apply agents_loop_partition in Hloop as (_ & _ & ?)|].
  intros a. case_decide as Ha.
  - apply (agents_loop_verdict _ _ _ _ _ _ _ _ a (NoDup_elements agents))
      in Hloop; [|by apply elem_of_elements].
    destruct (availability_map !! (a, d)) as [ts|].
    + by destruct Hloop as (k & _ & Hlast & _).
    + by destruct Hloop as (_ & _ & ->).
  - apply agents_loop_frame in Hloop as (_ & _ & Hfr).
    destruct (Hfr a) as (_ & _ & ->); [by rewrite elem_of_elements|done].
Qed.

Lemma last_available_dates_exact_witness :
  total Example.entry = size ({[ Example.HOST01; Example.HOST02; Example.HOST03 ]} : gset (list N)) ∧
  ∀ a, last_available_dates Example.entry !! a
       = if decide (a ∈ ({[ Example.HOST01; Example.HOST02; Example.HOST03 ]} : gset (list N)))
         then Example.index !! (a, Example.Domain1) else None.
Proof.
  apply (last_available_dates_exact (Model.steady Example.noon)
           Example.baseline Example.index 0 Example.Domain1
           {[ Example.HOST01; Example.HOST02; Example.HOST03 ]} Example.entry).
  - reflexivity.
  - vm_compute. reflexivity.
Defined.

(** X2.  A baseline agent the index has nothing for is [not_available], and
    not [available], whatever the clock reads. *)
Theorem agent_absent_from_index_not_available
    (clock : nat -> Z) (baseline_agents : gmap (list N) (gset (list N)))
    (availability_map : gmap (list N * list N) Z) (calls : nat)
    (d : list N) (agents : gset (list N)) (r : domain_results) (a : list N) :
  baseline_agents !! d = Some agents ->
  (calculate_availability clock baseline_agents availability_map calls).1 !! d
  = Some r ->
  a ∈ agents ->
  availability_map !! (a, d) = None ->
  a ∈ not_available r ∧ a ∉ available r.
Proof.
  intros Hd Hr Ha Habsent.
  pose proof (calculate_availability_lookup clock availability_map
                baseline_agents calls d) as H.
  rewrite Hd in H. destruct H as (n1 & r' & n2 & _ & Hloop & Hr').
  assert (r' = r) as -> by congruence.
  apply (agents_loop_verdict _ _ _ _ _ _ _ _ a (NoDup_elements agents))
    in Hloop; [|by apply elem_of_elements].
  rewrite Habsent in Hloop. simpl in Hloop. set_solver.
Qed.

Lemma agent_absent_from_index_not_available_witness :
  Example.HOST03 ∈ not_available Example.entry ∧
  Example.HOST03 ∉ available Example.entry.
Proof.
  apply (agent_absent_from_index_not_available (Model.steady Example.noon)
           Example.baseline Example.index 0 Example.Domain1
           {[ Example.HOST01; Example.HOST02; Example.HOST03 ]} Example.entry
           Example.HOST03).
  - reflexivity.
  - vm_compute. reflexivity.
  - apply (bool_decide_unpack _). vm_compute. reflexivity.
  - vm_compute. reflexivity.
Defined.

Section IndexOutsideBaseline.

Context (clock : nat -> Z).
Context (index1 index2 : gmap (list N * list N) Z).

Lemma agents_loop_same_entries d l : ∀ acc,
  (∀ a, a ∈ l -> index1 !! (a, d) = index2 !! (a, d)) ->
  fold_left (classify_agent clock index1 d) l acc
  = fold_left (classify_agent clock index2 d) l acc.
Proof.
  induction l as [|a l IH]; intros acc Hsame; cbn [fold_left]; [done|].
  assert (classify_agent clock index1 d acc a
          = classify_agent clock index2 d acc a) as ->.
  { unfold classify_agent. destruct acc as [r n].
    by rewrite (Hsame a) by left. }
  apply IH. intros b Hb. apply Hsame. by right.
Qed.

Lemma domains_loop_same_entries l : ∀ acc,
  (∀ d agents a, (d, agents) ∈ l -> a ∈ agents ->
                 index1 !! (a, d) = index2 !! (a, d)) ->
  fold_left (classify_domain clock index1) l acc
  = fold_left (classify_domain clock index2) l acc.
Proof.
  induction l as [|[d agents] l IH]; intros acc Hsame; cbn [fold_left];
    [done|].
  assert (classify_domain clock index1 acc (d, agents)
          = classify_domain clock index2 acc (d, agents)) as ->.
  { destruct acc as [results n]. unfold classify_domain.
    rewrite (agents_loop_same_entries d (elements agents)); [done|].
    intros a Ha. apply (Hsame d agents); [by left|].
    by apply elem_of_elements. }
  apply IH. intros d' agents' a Hin Ha. apply (Hsame d' agents'); [by right|done].
Qed.

End IndexOutsideBaseline.

(** X3.  Entries of the index for agents that are not in the baseline of
    their domain do nothing: two indices that agree on every pair of a
    baseline agent and its domain give the same results, with the same
    readings of the clock. *)
Theorem index_outside_baseline_ignored
    (clock : nat -> Z) (baseline_agents : gmap (list N) (gset (list N)))
    (index1 index2 : gmap (list N * list N) Z) (calls : nat) :
  (∀ d agents a, baseline_agents !! d = Some agents -> a ∈ agents ->
                 index1 !! (a, d) = index2 !! (a, d)) ->
  calculate_availability clock baseline_agents index1 calls
  = calculate_availability clock baseline_agents index2 calls.
Proof.
  intros Hsame. unfold calculate_availability.
  apply domains_loop_same_entries. intros d agents a Hin Ha.
  apply (Hsame d agents); [|done]. by apply elem_of_map_to_list.
Qed.

Lemma index_outside_baseline_ignored_witness :
  calculate_availability (Model.steady Example.noon) Example.baseline
    Example.index 0
  = calculate_availability (Model.steady Example.noon) Example.baseline
      Example.index_with_stranger 0.
Proof.
  apply (index_outside_baseline_ignored (Model.steady Example.noon)
           Example.baseline Example.index Example.index_with_stranger 0).
  intros d agents a Hd Ha. unfold Example.baseline in Hd.
  apply lookup_singleton_Some in Hd as [<- <-].
  rewrite !elem_of_union, !elem_of_singleton in Ha.
  destruct Ha as [[-> | ->] | ->]; vm_compute; reflexivity.
Defined.

Section ClockReadings.

Context (clock : nat -> Z) (availability_map : gmap (list N * list N) Z).

Lemma agents_loop_readings d l : ∀ r n,
  (fold_left (classify_agent clock availability_map d) l (r, n)).2
  = (n + length (filter (λ a, is_Some (availability_map !! (a, d))) l))%nat.
Proof.
  induction l as [|a l IH]; intros r n; cbn [fold_left].
  - simpl. lia.
  - rewrite filter_cons.
    destruct (availability_map !! (a, d)) as [ts|] eqn:E.
    + rewrite (classify_agent_present _ _ _ _ _ _ _ E).
      rewrite decide_True by done.
      destruct (ts >=? _); rewrite IH; simpl; lia.
    + rewrite (classify_agent_absent _ _ _ _ _ _ E).
      rewrite decide_False by (by intros [? ?]). apply IH.
Qed.

Lemma domains_loop_readings l : ∀ results n,
  (fold_left (classify_domain clock availability_map) l (results, n)).2
  = (n + sum_list_with
           (λ item : list N * gset (list N),
              length (filter (λ a, is_Some (availability_map !! (a, item.1)))
                        (elements item.2))) l)%nat.
Proof.
  induction l as [|[d agents] l IH]; intros results n; cbn [fold_left].
  - simpl. lia.
  - rewrite classify_domain_eq, IH, agents_loop_readings. simpl. lia.
Qed.

End ClockReadings.

(** X4.  [calculate_availability] reads the clock once for every baseline
    agent the availability map has a timestamp for, and not otherwise. *)
Theorem clock_read_once_per_indexed_agent
    (clock : nat -> Z) (baseline_agents : gmap (list N) (gset (list N)))
    (availability_map : gmap (list N * list N) Z) (calls : nat) :
  (calculate_availability clock baseline_agents availability_map calls).2
  = (calls
     + sum_list_with
         (λ item : list N * gset (list N),
            length (filter (λ a, is_Some (availability_map !! (a, item.1)))
                      (elements item.2)))
         (map_to_list baseline_agents))%nat.
Proof. apply domains_loop_readings. Qed.

(** X5.  With an empty availability map every baseline agent is
    [not_available]: each domain gets its whole baseline set as
    [not_available], nothing as [available], no last-seen date, and the clock
    is not read. *)
Theorem empty_index_nobody_available
    (clock : nat -> Z) (baseline_agents : gmap (list N) (gset (list N)))
    (calls : nat) :
  calculate_availability clock baseline_agents ∅ calls
  = ((λ agents, mk_domain_results (size agents) ∅ agents ∅) <$> baseline_agents,
     calls).
Proof.
  apply injective_projections; simpl.
  - apply map_eq. intros d. rewrite lookup_fmap.
    pose proof (calculate_availability_lookup clock ∅ baseline_agents calls d)
      as H.
    destruct (baseline_agents !! d) as [agents|] eqn:Hd; simpl; [|done].
    destruct H as (n1 & r & n2 & _ & Hloop & ->). f_equal.
    pose proof (agents_loop_partition _ _ _ _ _ _ _ Hloop)
      as (Hunion & Hdisj & Htotal).
    assert (available r = ∅) as Hav.
    { apply set_eq. intros a. split; [|set_solver]. intros Ha.
      assert (a ∈ agents) as Hin by (rewrite <- Hunion; set_solver).
      apply (agents_loop_verdict _ _ _ _ _ _ _ _ a (NoDup_elements agents))
        in Hloop; [|by apply elem_of_elements].
      rewrite lookup_empty in Hloop. simpl in Hloop. set_solver. }
    assert (last_available_dates r = ∅) as Hlast.
    { apply map_eq. intros a. rewrite lookup_empty.
      destruct (decide (a ∈ agents)) as [Hin|Hout].
      - apply (agents_loop_verdict _ _ _ _ _ _ _ _ a (NoDup_elements agents))
          in Hloop; [|by apply elem_of_elements].
        rewrite lookup_empty in Hloop. by destruct Hloop as (_ & _ & ->).
      - apply agents_loop_frame in Hloop as (_ & _ & Hfr).
        destruct (Hfr a) as (_ & _ & ->); [by rewrite elem_of_elements|done]. }
    destruct r as [t av nav last]. simpl in *. subst.
    f_equal. set_solver.
  - unfold calculate_availability. rewrite domains_loop_readings.
    assert (∀ l : list (list N * gset (list N)),
              sum_list_with
                (λ item : list N * gset (list N),
                   length (filter (λ a, is_Some ((∅ : gmap (list N * list N) Z)
                                                   !! (a, item.1)))
                             (elements item.2))) l = 0%nat) as ->; [|lia].
    induction l as [|[d agents] l IH]; simpl; [done|]. rewrite IH.
    assert (filter (λ a, is_Some ((∅ : gmap (list N * list N) Z) !! (a, d)))
              (elements agents) = []) as ->; [|done].
    induction (elements agents) as [|a l' IH']; [done|].
    rewrite filter_cons, decide_False; [done|].
    rewrite lookup_empty. by intros [? ?].
Qed.

(** X6.  Availability can only shrink as time passes: of two calls on the
    same baseline sets and availability map, one with the clock at [now1]
    and one with the clock at a later [now2], the later one has, in every
    domain, no more available agents and no fewer unavailable ones. *)
Theorem availability_shrinks_as_time_passes
    (clock1 clock2 : nat -> Z) (now1 now2 : Z)
    (baseline_agents : gmap (list N) (gset (list N)))
    (availability_map : gmap (list N * list N) Z) (calls1 calls2 : nat)
    (d : list N) (r1 r2 : domain_results) :
  (∀ k, clock1 k = now1) ->
  (∀ k, clock2 k = now2) ->
  now1 ≤ now2 ->
  (calculate_availability clock1 baseline_agents availability_map calls1).1 !! d
  = Some r1 ->
  (calculate_availability clock2 baseline_agents availability_map calls2).1 !! d
  = Some r2 ->
  available r2 ⊆ available r1 ∧ not_available r1 ⊆ not_available r2.
Proof.
  intros H1 H2 Hle.
  rewrite (calculate_availability_steady clock1 availability_map now1)
    by (intros; apply H1).
  rewrite (calculate_availability_steady clock2 availability_map now2)
    by (intros; apply H2).
  unfold Spec.classify. rewrite !map_lookup_imap.
  destruct (baseline_agents !! d) as [agents|]; simpl; [|done].
  intros [= <-] [= <-]. simpl.
  assert (∀ a, Spec.fresh_at availability_map now2 d a = true ->
               Spec.fresh_at availability_map now1 d a = true) as Hmono.
  { intros a. unfold Spec.fresh_at.
    destruct (availability_map !! (a, d)) as [ts|]; [|done].
    rewrite !bool_decide_eq_true. lia. }
  split; intros a; rewrite !elem_of_filter; intros [Hf Ha]; split; try done.
  - by apply Hmono.
  - destruct (Spec.fresh_at availability_map now2 d a) eqn:E; [|done].
    apply Hmono in E. congruence.
Qed.

Lemma availability_shrinks_as_time_passes_witness :
  available Example.entry_later ⊆ available Example.entry ∧
  not_available Example.entry ⊆ not_available Example.entry_later.
Proof.
  apply (availability_shrinks_as_time_passes (Model.steady Example.noon)
           (Model.steady (Example.noon + 1)) Example.noon (Example.noon + 1)
           Example.baseline Example.index 0 0 Example.Domain1
           Example.entry Example.entry_later).
  - intros k. reflexivity.
  - intros k. reflexivity.
  - lia.
  - vm_compute. reflexivity.
  - vm_compute. reflexivity.
Defined.

(** ** Stripping *)

Lemma lstrip_by_app p s t :
  lstrip_by p (s ++ t)
  = if forallb p s then lstrip_by p t else lstrip_by p s ++ t.
Proof.
  induction s as [|c s IH]; simpl; [done|].
  destruct (p c); simpl; [exact IH|done].
Qed.

Lemma lstrip_by_head p s c r : lstrip_by p s = c :: r -> p c = false.
Proof.
  induction s as [|c' s IH]; simpl; [done|].
  destruct (p c') eqn:E; [exact IH|]. by intros [= <- <-].
Qed.

Lemma lstrip_by_fixed p c r : p c = false -> lstrip_by p (c :: r) = c :: r.
Proof. intros H. simpl. by rewrite H. Qed.

Lemma lstrip_by_idempotent p s : lstrip_by p (lstrip_by p s) = lstrip_by p s.
Proof.
  destruct (lstrip_by p s) as [|c r] eqn:E; [done|].
  apply lstrip_by_fixed. by apply (lstrip_by_head p s c r).
Qed.

Lemma rstrip_by_cons p c r :
  rstrip_by p (c :: r)
  = if forallb p (rev r) then (if p c then [] else [c])
    else c :: rstrip_by p r.
Proof.
  unfold rstrip_by. simpl. rewrite lstrip_by_app.
  destruct (forallb p (rev r)); simpl.
  - by destruct (p c).
  - by rewrite rev_app_distr.
Qed.

Lemma rstrip_by_idempotent p s : rstrip_by p (rstrip_by p s) = rstrip_by p s.
Proof.
  unfold rstrip_by. by rewrite rev_involutive, lstrip_by_idempotent.
Qed.

Lemma strip_by_idempotent p s : strip_by p (strip_by p s) = strip_by p s.
Proof.
  unfold strip_by.
  destruct (lstrip_by p s) as [|c r] eqn:E; [done|].
  pose proof (lstrip_by_head p s c r E) as Hc.
  assert (lstrip_by p (rstrip_by p (c :: r)) = rstrip_by p (c :: r)) as ->.
  { rewrite rstrip_by_cons. rewrite Hc.
    destruct (forallb p (rev r)); by apply lstrip_by_fixed. }
  apply rstrip_by_idempotent.
Qed.

Lemma strip_by_app_l p ws s :
  forallb p ws = true -> strip_by p (ws ++ s) = strip_by p s.
Proof. intros H. unfold strip_by. by rewrite lstrip_by_app, H. Qed.

Lemma forallb_rev {A} (p : A -> bool) l : forallb p (rev l) = forallb p l.
Proof.
  induction l as [|a l IH]; simpl; [done|].
  rewrite forallb_app, IH. simpl. rewrite andb_true_r. apply andb_comm.
Qed.

Lemma lstrip_by_all p s : forallb p s = true -> lstrip_by p s = [].
Proof.
  induction s as [|c s IH]; simpl; [done|].
  destruct (p c); simpl; [exact IH|done].
Qed.

Lemma lstrip_by_not_all p s :
  forallb p s = false -> forallb p (lstrip_by p s) = false.
Proof.
  induction s as [|c s IH]; simpl; [done|].
  destruct (p c) eqn:E; simpl; [exact IH|]. by rewrite E.
Qed.

Lemma strip_by_app_r p s ws :
  forallb p ws = true -> strip_by p (s ++ ws) = strip_by p s.
Proof.
  intros H. unfold strip_by. rewrite lstrip_by_app.
  destruct (forallb p s) eqn:E.
  - rewrite (lstrip_by_all p ws H), (lstrip_by_all p s E). done.
  - unfold rstrip_by. rewrite rev_app_distr, lstrip_by_app.
    by rewrite forallb_rev, H.
Qed.

(** ** More on dates *)

(** X7.  Whitespace around a date string does not matter to
    [parse_available_date]: neither to the instant nor to the error. *)
Theorem parse_available_date_ignores_surrounding_whitespace
    (strptime : list N -> list N -> option Z) (before date_str after : list N) :
  forallb isspace before = true ->
  forallb isspace after = true ->
  parse_available_date strptime (before ++ date_str ++ after)
  = parse_available_date strptime date_str.
Proof.
  intros Hb Ha. unfold parse_available_date, strip.
  by rewrite (strip_by_app_l _ _ _ Hb), (strip_by_app_r _ _ _ Ha).
Qed.

Lemma parse_available_date_ignores_surrounding_whitespace_witness :
  parse_available_date Model.strptime
    (py "  " ++ py "2026-01-31 12:00:00" ++ [9%N; 10%N])
  = parse_available_date Model.strptime (py "2026-01-31 12:00:00").
Proof.
  apply (parse_available_date_ignores_surrounding_whitespace Model.strptime
           (py "  ") (py "2026-01-31 12:00:00") [9%N; 10%N]).
  - reflexivity.
  - reflexivity.
Defined.

Section IndexFailure.

Context (strptime : list N -> list N -> option Z).

Lemma availability_map_from_app before : ∀ after m0,
  availability_map_from strptime (before ++ after) m0
  = match availability_map_from strptime before m0 with
    | Ok m => availability_map_from strptime after m
    | Raise e => Raise e
    end.
Proof.
  induction before as [|[[d a] s] before IH]; intros after m0; [done|].
  rewrite <- app_comm_cons, !availability_map_from_cons.
  destruct (parse_available_date strptime s); [apply IH|done].
Qed.

Lemma availability_map_from_all_parse records : ∀ m0,
  (∀ d a s, (d, a, s) ∈ records ->
            ∃ t, parse_available_date strptime s = Ok t) ->
  ∃ m, availability_map_from strptime records m0 = Ok m.
Proof.
  induction records as [|[[d a] s] records IH]; intros m0 Hall.
  - by exists m0.
  - rewrite availability_map_from_cons.
    destruct (Hall d a s) as [t ->]; [by left|].
    apply IH. intros d' a' s' Hin. apply (Hall d' a' s'). by right.
Qed.

End IndexFailure.

(** X8.  One bad date aborts the building of the index: when the rows before
    a row all have dates that resolve and the date of the row matches none
    of the formats, the call fails with [InvalidDateFormat] for that date,
    whatever comes after the row and whatever was gathered before it. *)
Theorem index_aborts_at_first_bad_date
    (strptime : list N -> list N -> option Z)
    (before after : list (list N * list N * list N))
    (domain agent_name date_str : list N) (m0 : gmap (list N * list N) Z) :
  (∀ d a s, (d, a, s) ∈ before ->
            ∃ t, parse_available_date strptime s = Ok t) ->
  (∀ fmt, fmt ∈ date_formats -> strptime (strip date_str) fmt = None) ->
  availability_map_from strptime
    (before ++ (domain, agent_name, date_str) :: after) m0
  = Raise (CSVValidationError (InvalidDateFormat (strip date_str))).
Proof.
  intros Hbefore Hbad. rewrite availability_map_from_app.
  destruct (availability_map_from_all_parse strptime before m0 Hbefore)
    as [m ->].
  rewrite availability_map_from_cons. unfold parse_available_date.
  by rewrite (try_formats_none strptime _ _ Hbad).
Qed.

Lemma index_aborts_at_first_bad_date_witness :
  availability_map_from Model.strptime
    (Example.feed
     ++ (Example.Domain1, Example.HOST02, py " yesterday ") :: Example.feed) ∅
  = Raise (CSVValidationError (InvalidDateFormat (strip (py " yesterday ")))).
Proof.
  apply (index_aborts_at_first_bad_date Model.strptime Example.feed
           Example.feed Example.Domain1 Example.HOST02 (py " yesterday ") ∅).
  - intros d a s Hin. unfold Example.feed in Hin.
    repeat (apply elem_of_cons in Hin as [[= -> -> ->]|Hin];
            [eexists; vm_compute; reflexivity|]).
    by apply elem_of_nil in Hin.
  - intros fmt Hin.
    repeat (apply elem_of_cons in Hin as [->|Hin]; [vm_compute; reflexivity|]).
    by apply elem_of_nil in Hin.
Defined.

(** X9.  The index is built exactly when every date resolves. *)
Theorem index_built_iff_all_dates_resolve
    (strptime : list N -> list N -> option Z)
    (records : list (list N * list N * list N)) :
  (∃ m, availability_map_from strptime records ∅ = Ok m) ↔
  (∀ d a s, (d, a, s) ∈ records ->
            ∃ t, parse_available_date strptime s = Ok t).
Proof.
  split; [|apply availability_map_from_all_parse].
  intros [m Hm] d a s Hin.
  apply list_elem_of_split in Hin as (before & after & ->).
  rewrite availability_map_from_app in Hm.
  destruct (availability_map_from strptime before ∅) as [m1|]; [|done].
  rewrite availability_map_from_cons in Hm.
  destruct (parse_available_date strptime s) as [t|]; [by exists t|done].
Qed.

(** ** More on the validators *)

Lemma strip_value_stripped v s : Csv.strip_value v = Ok s -> strip s = s.
Proof.
  destruct v as [t|]; simpl; [|done]. intros [= <-].
  apply strip_by_idempotent.
Qed.

(** What the rows loop of the baseline validator adds when it succeeds. *)
Lemma baseline_rows_ok csv_path fieldnames rows : ∀ row_num err records out,
  baseline_rows csv_path fieldnames row_num rows err records = Ok out ->
  ∃ added,
    out = records ++ added ∧
    length added = length (filter (λ row, row ≠ []) rows) ∧
    Forall (λ record : list N * list N,
              record.1 ≠ [] ∧ record.2 ≠ [] ∧
              strip record.1 = record.1 ∧ strip record.2 = record.2) added.
Proof.
  induction rows as [|row rows IH]; intros row_num err records out.
  - simpl. destruct err; [done|]. intros [= <-]. exists [].
    by rewrite app_nil_r.
  - destruct row as [|x row].
    + cbn [baseline_rows]. intros H. apply IH in H as (added & -> & Hlen & Hall).
      exists added. rewrite filter_cons, decide_False by (by intros ?). done.
    + cbn [baseline_rows]. unfold bind.
      destruct (Csv.subscript _ (py "Domain")) as [v|]; [|done].
      destruct (Csv.strip_value v) as [domain|] eqn:Ed; [|done].
      destruct (Csv.subscript _ (py "Agent Name")) as [w|]; [|done].
      destruct (Csv.strip_value w) as [agent_name|] eqn:Ea; [|done].
      destruct domain as [|c domain]; [done|].
      destruct agent_name as [|c' agent_name]; [done|].
      intros H. apply IH in H as (added & -> & Hlen & Hall).
      exists ((c :: domain, c' :: agent_name) :: added).
      rewrite <- app_assoc. split; [done|]. split.
      * rewrite filter_cons, decide_True by done. simpl. by rewrite Hlen.
      * apply Forall_cons. split; [|done]. simpl.
        split; [done|]. split; [done|].
        split; [by apply (strip_value_stripped v)|by apply (strip_value_stripped w)].
Qed.

(** X10.  What the baseline validator returns is never empty, and every
    record in it has a domain and an agent name that are not empty and have
    no whitespace left around them. *)
Theorem validate_baseline_csv_records_clean
    (fs : gmap (list N) (list byte)) (csv_path : list N)
    (records : list (list N * list N)) :
  validate_baseline_csv fs csv_path = Ok records ->
  records ≠ [] ∧
  ∀ domain agent_name, (domain, agent_name) ∈ records ->
    domain ≠ [] ∧ agent_name ≠ [] ∧
    strip domain = domain ∧ strip agent_name = agent_name.
Proof.
  unfold validate_baseline_csv.
  destruct (fs !! csv_path) as [[|b content]|]; [done| |done].
  unfold bind. destruct (read_text (b :: content)) as [f|]; [|done].
  destruct (Csv.reader_rows (readlines f)) as [[|headers rows] err].
  { by destruct err. }
  destruct (decide _); [|done].
  destruct (baseline_rows _ _ _ _ _ _) as [out|] eqn:E; [|done].
  destruct out as [|r out]; [done|]. intros [= <-]. split; [done|].
  apply baseline_rows_ok in E as (added & Hout & _ & Hall).
  simpl in Hout. subst added. intros domain agent_name Hin.
  rewrite Forall_forall in Hall. apply (Hall (domain, agent_name)).
  exact Hin.
Qed.

Lemma validate_baseline_csv_records_clean_witness :
  [(Example.Domain1, Example.HOST01); (Example.Domain1, Example.HOST02)] ≠ [] ∧
  ∀ domain agent_name,
    (domain, agent_name)
    ∈ [(Example.Domain1, Example.HOST01); (Example.Domain1, Example.HOST02)] ->
    domain ≠ [] ∧ agent_name ≠ [] ∧
    strip domain = domain ∧ strip agent_name = agent_name.
Proof.
  apply (validate_baseline_csv_records_clean Example.fs_baseline Example.path
           [(Example.Domain1, Example.HOST01);
            (Example.Domain1, Example.HOST02)]).
  vm_compute. reflexivity.
Defined.

Lemma lstrip_by_subset p s x : x ∈ lstrip_by p s -> x ∈ s.
Proof.
  induction s as [|c s IH]; simpl; [done|].
  destruct (p c); [|done]. intros H. right. by apply IH.
Qed.

Lemma strip_by_subset p s x : x ∈ strip_by p s -> x ∈ s.
Proof.
  unfold strip_by, rstrip_by. intros H.
  apply list_elem_of_In, in_rev, list_elem_of_In in H.
  apply lstrip_by_subset in H.
  apply list_elem_of_In, in_rev, list_elem_of_In in H.
  by apply lstrip_by_subset in H.
Qed.

Lemma strip_quotes_subset s x : x ∈ strip_quotes s -> x ∈ s.
Proof.
  unfold strip_quotes, strip_chars, strip. intros H.
  by do 3 apply strip_by_subset in H.
Qed.

Lemma join_elem sep l x :
  x ∈ join sep l -> x ∈ sep ∨ ∃ t, t ∈ l ∧ x ∈ t.
Proof.
  induction l as [|t l IH]; simpl.
  - intros H. by apply elem_of_nil in H.
  - destruct l as [|t' l].
    + intros H. right. exists t. split; [left|done].
    + rewrite !elem_of_app. intros [H|[H|H]].
      * right. exists t. split; [left|done].
      * by left.
      * destruct (IH H) as [?|(u & Hu & Hx)]; [by left|].
        right. exists u. split; [by right|done].
Qed.

(** The character loop never lets a double quote through. *)
Lemma split_respecting_quotes_no_dquote line : ∀ parts current in_quotes,
  (∀ p, p ∈ parts -> dquote ∉ p) -> dquote ∉ current ->
  ∀ p, p ∈ split_respecting_quotes line parts current in_quotes -> dquote ∉ p.
Proof.
  induction line as [|c line IH]; intros parts current in_quotes Hparts Hcur;
    simpl.
  - intros p Hp. apply elem_of_app in Hp as [Hp|Hp]; [by apply Hparts|].
    by apply list_elem_of_singleton in Hp as ->.
  - destruct (N.eqb_spec c dquote) as [->|Hc]; [by apply IH|].
    destruct ((c =? comma)%N && negb in_quotes).
    + apply IH; [|apply not_elem_of_nil].
      intros p Hp. apply elem_of_app in Hp as [Hp|Hp]; [by apply Hparts|].
      by apply list_elem_of_singleton in Hp as ->.
    + apply IH; [done|]. intros Hin.
      apply elem_of_app in Hin as [Hin|Hin]; [done|].
      apply list_elem_of_singleton in Hin. congruence.
Qed.

Lemma nth_elem_or_nil (parts : list (list N)) i x :
  x ∈ nth i parts [] -> ∃ p, p ∈ parts ∧ x ∈ p.
Proof.
  revert i. induction parts as [|p parts IH]; intros [|i]; simpl; intros H;
    try (by apply elem_of_nil in H).
  - exists p. split; [left|done].
  - destruct (IH i H) as (q & Hq & Hx). exists q. split; [by right|done].
Qed.

(** What a row gives when it is accepted. *)
Lemma availability_row_ok csv_path row_num line domain agent_name date :
  availability_row csv_path row_num line = Ok (domain, agent_name, date) ->
  domain ≠ [] ∧ agent_name ≠ [] ∧
  dquote ∉ domain ∧ dquote ∉ agent_name ∧ dquote ∉ date.
Proof.
  unfold availability_row.
  set (parts := split_respecting_quotes line [] [] false).
  assert (∀ p, p ∈ parts -> dquote ∉ p) as Hparts.
  { apply split_respecting_quotes_no_dquote; [|apply not_elem_of_nil].
    intros p Hp. by apply elem_of_nil in Hp. }
  destruct (length parts <? 3)%nat; [done|].
  destruct (strip_quotes (nth 1 parts [])) as [|c a] eqn:Ea; [done|].
  destruct (strip_quotes (nth 0 parts [])) as [|c' d] eqn:Ed; [done|].
  intros [= <- <- <-]. split; [done|]. split; [done|].
  split; [|split].
  - rewrite <- Ed. intros H. apply strip_quotes_subset in H.
    apply nth_elem_or_nil in H as (p & Hp & Hx). by apply (Hparts p).
  - rewrite <- Ea. intros H. apply strip_quotes_subset in H.
    apply nth_elem_or_nil in H as (p & Hp & Hx). by apply (Hparts p).
  - intros H. apply join_elem in H as [H|(t & Ht & Hx)].
    + assert (dquote ∉ py ", ") as Hsep
        by (apply (bool_decide_unpack _); vm_compute; reflexivity).
      done.
    + apply list_elem_of_fmap in Ht as (p & -> & Hp).
      apply strip_quotes_subset in Hx. apply (Hparts p); [|done].
      by apply (subseteq_drop 2 parts).
Qed.

Lemma availability_rows_ok csv_path lines : ∀ row_num records out,
  availability_rows csv_path row_num lines records = Ok out ->
  ∃ added,
    out = records ++ added ∧
    Forall (λ record : list N * list N * list N,
              record.1.1 ≠ [] ∧ record.1.2 ≠ [] ∧
              dquote ∉ record.1.1 ∧ dquote ∉ record.1.2 ∧ dquote ∉ record.2)
      added.
Proof.
  induction lines as [|line lines IH]; intros row_num records out; simpl.
  - intros [= <-]. exists []. by rewrite app_nil_r.
  - destruct (strip line) as [|c l] eqn:E.
    + apply IH.
    + unfold bind.
      destruct (availability_row csv_path row_num (c :: l))
        as [[[d a] date]|] eqn:Er; [|done].
      intros H. apply IH in H as (added & -> & Hall).
      exists ((d, a, date) :: added). rewrite <- app_assoc.
      split; [done|]. apply Forall_cons. split; [|done].
      by apply availability_row_ok in Er.
Qed.

(** X11.  In every record the availability validator returns, the domain
    and the agent name are not empty, and no field has a double quote in
    it: the quotes of the line are all dropped. *)
Theorem validate_availability_csv_records_clean
    (fs : gmap (list N) (list byte)) (csv_path : list N)
    (records : list (list N * list N * list N)) :
  validate_availability_csv fs csv_path = Ok records ->
  ∀ domain agent_name date, (domain, agent_name, date) ∈ records ->
    domain ≠ [] ∧ agent_name ≠ [] ∧
    dquote ∉ domain ∧ dquote ∉ agent_name ∧ dquote ∉ date.
Proof.
  unfold validate_availability_csv.
  destruct (fs !! csv_path) as [[|b content]|]; [| |done].
  { intros [= <-] ? ? ? H. by apply elem_of_nil in H. }
  unfold bind. destruct (read_text (b :: content)) as [f|]; [|done].
  destruct (readlines f) as [|first_line data]; [done|].
  destruct (decide _); [|done].
  intros H. apply availability_rows_ok in H as (added & Hout & Hall).
  simpl in Hout. subst added. intros domain agent_name date Hin.
  rewrite Forall_forall in Hall. apply (Hall (domain, agent_name, date) Hin).
Qed.

Lemma validate_availability_csv_records_clean_witness :
  py "HOST01" ≠ [] ∧ py "DomainX" ≠ [] ∧
  dquote ∉ py "HOST01" ∧ dquote ∉ py "DomainX" ∧
  dquote ∉ py "Jan 31, 2026 @ 12:38:00.504".
Proof.
  refine (validate_availability_csv_records_clean Example.fs_quoted_line
            Example.path
            [(py "HOST01", py "DomainX", py "Jan 31, 2026 @ 12:38:00.504")]
            _ (py "HOST01") (py "DomainX") (py "Jan 31, 2026 @ 12:38:00.504")
            _).
  - vm_compute. reflexivity.
  - apply list_elem_of_singleton. reflexivity.
Defined.

Lemma availability_row_error csv_path row_num line e :
  availability_row csv_path row_num line = Raise e ->
  e = CSVValidationError (MalformedRow csv_path row_num) ∨
  e = CSVValidationError (EmptyField csv_path row_num).
Proof.
  unfold availability_row.
  destruct (length _ <? 3)%nat; [intros [= <-]; by left|].
  destruct (strip_quotes (nth 1 _ [])); [intros [= <-]; by right|].
  destruct (strip_quotes (nth 0 _ [])); [intros [= <-]; by right|done].
Qed.

Lemma availability_row_number_irrelevant csv_path n n' line record :
  availability_row csv_path n line = Ok record ->
  availability_row csv_path n' line = Ok record.
Proof.
  unfold availability_row.
  destruct (length _ <? 3)%nat; [done|].
  destruct (strip_quotes (nth 1 _ [])); [done|].
  by destruct (strip_quotes (nth 0 _ [])).
Qed.

(** Where the data-row loop fails: at the first line that is not blank and
    is refused; the number it is given is its position. *)
Lemma availability_rows_error csv_path lines : ∀ row_num records e,
  availability_rows csv_path row_num lines records = Raise e ->
  ∃ i line,
    lines !! i = Some line ∧ strip line ≠ [] ∧
    availability_row csv_path (row_num + i) (strip line) = Raise e ∧
    ∀ j line', (j < i)%nat -> lines !! j = Some line' ->
      strip line' = [] ∨
      ∃ record, availability_row csv_path (row_num + j) (strip line')
                = Ok record.
Proof.
  induction lines as [|line lines IH]; intros row_num records e; simpl;
    [done|].
  destruct (strip line) as [|c l] eqn:E.
  - intros H. apply IH in H as (i & line0 & Hi & Hne & Hrow & Hbefore).
    exists (S i), line0. rewrite <- Nat.add_succ_comm.
    split; [done|]. split; [done|]. split; [done|].
    intros [|j] line' Hj Hl; simpl in Hl.
    + injection Hl as <-. by left.
    + rewrite <- Nat.add_succ_comm. apply (Hbefore j line'); [lia|done].
  - unfold bind.
    destruct (availability_row csv_path row_num (c :: l)) as [record|e']
      eqn:Er.
    + intros H. apply IH in H as (i & line0 & Hi & Hne & Hrow & Hbefore).
      exists (S i), line0. rewrite <- Nat.add_succ_comm.
      split; [done|]. split; [done|]. split; [done|].
      intros [|j] line' Hj Hl; simpl in Hl.
      * injection Hl as <-. right. exists record.
        by rewrite Nat.add_0_r, E.
      * rewrite <- Nat.add_succ_comm. apply (Hbefore j line'); [lia|done].
    + intros [= <-]. exists 0%nat, line. rewrite Nat.add_0_r, E.
      split; [done|]. split; [done|]. split; [done|]. intros j ? Hj. lia.
Qed.

(** X12.  The row number in a [MalformedRow] or [EmptyField] error of the
    availability validator is the number of the offending line in the file,
    counting from 1 with the header and the blank lines: that line is not
    blank and is refused with this error, and every line between the header
    and it is blank or accepted. *)
Theorem availability_error_row_is_line_number
    (fs : gmap (list N) (list byte)) (csv_path : list N)
    (content : list byte) (f : list N) (e : validation_error) (k : nat) :
  fs !! csv_path = Some content ->
  read_text content = Ok f ->
  validate_availability_csv fs csv_path = Raise (CSVValidationError e) ->
  e = MalformedRow csv_path k ∨ e = EmptyField csv_path k ->
  (2 ≤ k)%nat ∧
  ∃ line,
    readlines f !! (k - 1)%nat = Some line ∧ strip line ≠ [] ∧
    availability_row csv_path k (strip line) = Raise (CSVValidationError e) ∧
    ∀ j line', (1 ≤ j < k - 1)%nat -> readlines f !! j = Some line' ->
      strip line' = [] ∨
      ∃ record, availability_row csv_path (S j) (strip line') = Ok record.
Proof.
  intros Hfile Hread. unfold validate_availability_csv. rewrite Hfile.
  destruct content as [|b content]; [done|].
  rewrite Hread. cbn [bind].
  destruct (readlines f) as [|first_line data];
    [intros [= <-] [?|?]; done|].
  destruct (decide _); [|intros [= <-] [?|?]; done].
  intros H He.
  apply availability_rows_error in H as (i & line & Hi & Hne & Hrow & Hbefore).
  assert (k = (2 + i)%nat) as ->.
  { apply availability_row_error in Hrow as [[= ->]|[= ->]];
      destruct He as [[= ?]|[= ?]]; done. }
  split; [lia|]. exists line.
  replace (2 + i - 1)%nat with (S i) by lia.
  split; [done|]. split; [done|]. split; [done|].
  intros [|j] line' Hj Hl; [lia|]. simpl in Hl.
  apply (Hbefore j line'); [lia|done].
Qed.

Lemma availability_error_row_is_line_number_witness :
  (2 ≤ 4)%nat ∧
  ∃ line,
    readlines (Example.text_of_lines Example.lines_with_short_row)
      !! (4 - 1)%nat = Some line ∧
    strip line ≠ [] ∧
    availability_row Example.path 4 (strip line)
    = Raise (CSVValidationError (MalformedRow Example.path 4)) ∧
    ∀ j line', (1 ≤ j < 4 - 1)%nat ->
      readlines (Example.text_of_lines Example.lines_with_short_row) !! j
      = Some line' ->
      strip line' = [] ∨
      ∃ record, availability_row Example.path (S j) (strip line') = Ok record.
Proof.
  apply (availability_error_row_is_line_number
           Example.fs_short_availability_row Example.path
           (Model.file_of_lines Example.lines_with_short_row)
           (Example.text_of_lines Example.lines_with_short_row)
           (MalformedRow Example.path 4) 4).
  - reflexivity.
  - vm_compute. reflexivity.
  - vm_compute. reflexivity.
  - left. reflexivity.
Defined.

Lemma availability_rows_without_blank_lines csv_path lines :
  ∀ row_num row_num' records out,
  availability_rows csv_path row_num lines records = Ok out ->
  availability_rows csv_path row_num'
    (filter (λ line, strip line ≠ []) lines) records = Ok out.
Proof.
  induction lines as [|line lines IH]; intros n n' records out; simpl;
    [done|].
  rewrite filter_cons. destruct (strip line) as [|c l] eqn:E.
  - rewrite decide_False by (by intros ?). apply IH.
  - rewrite decide_True by done. simpl. rewrite E. unfold bind.
    destruct (availability_row csv_path n (c :: l)) as [record|] eqn:Er;
      [|done].
    rewrite (availability_row_number_irrelevant _ _ n' _ _ Er). apply IH.
Qed.

(** X13.  Blank lines among the data rows are skipped: leaving them out
    does not change the records the data-row loop returns. *)
Theorem blank_lines_are_skipped
    (csv_path : list N) (lines : list (list N)) (row_num row_num' : nat)
    (out : list (list N * list N * list N)) :
  availability_rows csv_path row_num lines [] = Ok out ->
  availability_rows csv_path row_num'
    (filter (λ line, strip line ≠ []) lines) [] = Ok out.
Proof. apply availability_rows_without_blank_lines. Qed.

Lemma blank_lines_are_skipped_witness :
  availability_rows Example.path 7
    (filter (λ line, strip line ≠ [])
       [[10%N]; Example.quoted_line ++ [10%N]; py "  "]) []
  = Ok [(py "HOST01", py "DomainX", py "Jan 31, 2026 @ 12:38:00.504")].
Proof.
  apply (blank_lines_are_skipped Example.path
           [[10%N]; Example.quoted_line ++ [10%N]; py "  "] 2 7
           [(py "HOST01", py "DomainX", py "Jan 31, 2026 @ 12:38:00.504")]).
  vm_compute. reflexivity.
Defined.

Lemma availability_rows_all_blank csv_path lines : ∀ row_num records,
  (∀ line, line ∈ lines -> strip line = []) ->
  availability_rows csv_path row_num lines records = Ok records.
Proof.
  induction lines as [|line lines IH]; intros row_num records Hall; simpl;
    [done|].
  rewrite (Hall line) by left. apply IH. intros l Hl. apply Hall. by right.
Qed.

(** X14.  An availability file that has the header and otherwise only blank
    lines is valid and yields no record, and an empty availability map. *)
Theorem header_only_file_gives_empty_index
    (strptime : list N -> list N -> option Z)
    (fs : gmap (list N) (list byte)) (csv_path : list N)
    (content : list byte) (f first_line : list N) (data : list (list N)) :
  fs !! csv_path = Some content ->
  read_text content = Ok f ->
  readlines f = first_line :: data ->
  map (λ h, lower (strip_header h)) (availability_headers first_line)
  = map lower AVAILABILITY_COLUMNS ->
  (∀ line, line ∈ data -> strip line = []) ->
  validate_availability_csv fs csv_path = Ok [] ∧
  get_availability_records strptime fs csv_path = Ok ∅.
Proof.
  intros Hfile Hread Hlines Hheader Hblank.
  assert (validate_availability_csv fs csv_path = Ok []) as Hvalid.
  { unfold validate_availability_csv. rewrite Hfile.
    destruct content as [|b content]; [done|].
    rewrite Hread. cbn [bind]. rewrite Hlines.
    rewrite decide_True by done. by apply availability_rows_all_blank. }
  split; [done|]. unfold get_availability_records. by rewrite Hvalid.
Qed.

Lemma header_only_file_gives_empty_index_witness :
  validate_availability_csv Example.fs_placeholder Example.path = Ok [] ∧
  get_availability_records Model.strptime Example.fs_placeholder Example.path
  = Ok ∅.
Proof.
  apply (header_only_file_gives_empty_index Model.strptime
           Example.fs_placeholder Example.path (Example.availability_file [])
           (Example.text_of_lines [Example.header])
           (Example.header ++ [10%N]) []).
  - reflexivity.
  - vm_compute. reflexivity.
  - vm_compute. reflexivity.
  - vm_compute. reflexivity.
  - intros line Hin. by apply elem_of_nil in Hin.
Defined.

(** ** The baseline store *)

Lemma group_row_lookup (m : gmap (list N) (gset (list N))) d a d' :
  Store.group_row m (d, a) !! d'
  = if decide (d = d') then Some ({[a]} ∪ default ∅ (m !! d)) else m !! d'.
Proof.
  unfold Store.group_row. rewrite lookup_alter.
  destruct (m !! d) as [s|] eqn:E; case_decide; subst; simpl.
  - by rewrite E.
  - done.
  - by rewrite lookup_insert_eq.
  - by rewrite lookup_insert_ne.
Qed.

(** The grouping loop: an agent is under a domain when it was there or the
    rows have the pair. *)
Lemma group_rows_elem l : ∀ (m : gmap (list N) (gset (list N))) d a,
  (∃ s, fold_left Store.group_row l m !! d = Some s ∧ a ∈ s) ↔
  (∃ s, m !! d = Some s ∧ a ∈ s) ∨ (d, a) ∈ l.
Proof.
  induction l as [|[d0 a0] l IH]; intros m d a; cbn [fold_left].
  - split; [by left|]. intros [H|H]; [done|by apply elem_of_nil in H].
  - rewrite IH, elem_of_cons. split.
    + intros [(s & Hs & Ha)|H]; [|by right; right].
      rewrite group_row_lookup in Hs. case_decide as Hd.
      * subst d0. injection Hs as <-.
        apply elem_of_union in Ha as [Ha|Ha].
        -- apply elem_of_singleton in Ha as ->. right. by left.
        -- destruct (m !! d) as [s|]; simpl in Ha; [|set_solver].
           left. by exists s.
      * left. by exists s.
    + intros [(s & Hs & Ha)|[[= -> ->]|H]]; [| |by right].
      * left. rewrite group_row_lookup. case_decide as Hd.
        -- subst d0. rewrite Hs. simpl. eexists. split; [done|set_solver].
        -- by exists s.
      * left. rewrite group_row_lookup, decide_True by done.
        eexists. split; [done|set_solver].
Qed.

Lemma group_rows_non_empty l : ∀ (m : gmap (list N) (gset (list N))),
  (∀ d s, m !! d = Some s -> s ≠ ∅) ->
  ∀ d s, fold_left Store.group_row l m !! d = Some s -> s ≠ ∅.
Proof.
  induction l as [|[d0 a0] l IH]; intros m Hm; cbn [fold_left]; [done|].
  apply IH. intros d s. rewrite group_row_lookup.
  case_decide; [|apply Hm]. intros [= <-]. set_solver.
Qed.

Lemma get_baseline_agents_elem (t : Store.table_name) (db : Store.database)
    (d a : list N) :
  (∃ agents, Store.get_baseline_agents t db !! d = Some agents ∧ a ∈ agents)
  ↔ ∃ os, (d, a, os) ∈ Store.rows_of t db.
Proof.
  unfold Store.get_baseline_agents, Store.select_distinct.
  rewrite group_rows_elem, elem_of_remove_dups. split.
  - intros [(s & Hs & _)|H]; [by rewrite lookup_empty in Hs|].
    apply list_elem_of_fmap in H as ([[d' a'] os] & [= -> ->] & Hin).
    by exists os.
  - intros [os Hin]. right. apply list_elem_of_fmap.
    by exists (d, a, os).
Qed.

Lemma get_baseline_agents_non_empty (t : Store.table_name)
    (db : Store.database) (d : list N) (agents : gset (list N)) :
  Store.get_baseline_agents t db !! d = Some agents -> agents ≠ ∅.
Proof.
  apply group_rows_non_empty. intros d' s Hs. by rewrite lookup_empty in Hs.
Qed.

(** X15.  [get_baseline_agents] groups the rows of the table by domain: an
    agent is in the set of a domain exactly when the table has a row with
    this domain and agent, and no domain is given an empty set. *)
Theorem get_baseline_agents_groups_rows
    (t : Store.table_name) (db : Store.database) :
  (∀ d a,
     (∃ agents, Store.get_baseline_agents t db !! d = Some agents ∧ a ∈ agents)
     ↔ ∃ os, (d, a, os) ∈ Store.rows_of t db) ∧
  (∀ d agents,
     Store.get_baseline_agents t db !! d = Some agents -> agents ≠ ∅).
Proof.
  split.
  - apply get_baseline_agents_elem.
  - apply get_baseline_agents_non_empty.
Qed.

Lemma insert_records_some os records : ∀ rows0 rows,
  Store.insert_records os records rows0 = Some rows ->
  rows = rows0 ++ map (λ r : list N * list N, (r.1, r.2, os)) records ∧
  NoDup records ∧ (∀ r, r ∈ records -> r ∉ map fst rows0).
Proof.
  induction records as [|[d a] records IH]; intros rows0 rows; simpl.
  - intros [= <-]. rewrite app_nil_r. split; [done|]. split; [constructor|].
    intros r Hr. by apply elem_of_nil in Hr.
  - unfold Store.insert. case_decide as Hin; [done|].
    intros H. apply IH in H as (-> & Hnd & Hfresh).
    split; [by rewrite <- app_assoc|].
    assert (∀ r, r ∈ records → r ≠ (d, a) ∧ r ∉ map fst rows0) as Hr.
    { intros r Hr. specialize (Hfresh r Hr).
      rewrite map_app in Hfresh. simpl in Hfresh.
      rewrite elem_of_app, list_elem_of_singleton in Hfresh. tauto. }
    split.
    + apply NoDup_cons. split; [|done]. intros Hda.
      by destruct (Hr _ Hda).
    + intros r Hrin. apply elem_of_cons in Hrin as [->|Hrin]; [done|].
      by destruct (Hr r Hrin).
Qed.

Lemma insert_records_none os records : ∀ rows0,
  Store.insert_records os records rows0 = None ->
  ¬ NoDup records ∨ ∃ r, r ∈ records ∧ r ∈ map fst rows0.
Proof.
  induction records as [|[d a] records IH]; intros rows0; simpl; [done|].
  unfold Store.insert. case_decide as Hin.
  - intros _. right. exists (d, a). split; [left|done].
  - intros H. apply IH in H as [Hnd|(r & Hr & Hr0)].
    + left. intros Hnd'. apply Hnd. by apply NoDup_cons in Hnd' as [_ ?].
    + rewrite map_app in Hr0. simpl in Hr0.
      apply elem_of_app in Hr0 as [Hr0|Hr0].
      * right. exists r. split; [by right|done].
      * apply list_elem_of_singleton in Hr0 as ->. left. intros Hnd'.
        by apply NoDup_cons in Hnd' as [? _].
Qed.

(** X16.  Loading replaces: when a baseline load returns, the table holds
    one row for each record of the file and nothing of what it held before,
    the other table is as it was, the number reported is the number of
    records, and [get_baseline_agents] gives back the records, grouped by
    domain. *)
Theorem load_baseline_then_get
    (t : Store.table_name) (os : list N) (fs : gmap (list N) (list byte))
    (csv_path : list N) (db db' : Store.database) (n : nat) :
  Store.load_baseline t os fs csv_path db = (db', Store.Returned n) ->
  ∃ records,
    validate_baseline_csv fs csv_path = Ok records ∧
    n = length records ∧ NoDup records ∧
    Store.rows_of t db'
    = map (λ r : list N * list N, (r.1, r.2, os)) records ∧
    (∀ t', t' ≠ t -> Store.rows_of t' db' = Store.rows_of t' db) ∧
    ∀ d a,
      (∃ agents,
         Store.get_baseline_agents t db' !! d = Some agents ∧ a ∈ agents)
      ↔ (d, a) ∈ records.
Proof.
  unfold Store.load_baseline.
  destruct (validate_baseline_csv fs csv_path) as [records|]; [|done].
  destruct (Store.insert_records os records []) as [rows|] eqn:E; [|done].
  intros [= <- <-]. exists records.
  apply insert_records_some in E as (-> & Hnd & _). simpl.
  split; [done|]. split; [done|]. split; [done|].
  assert (Store.rows_of t (Store.with_rows t
            (map (λ r : list N * list N, (r.1, r.2, os)) records) db)
          = map (λ r : list N * list N, (r.1, r.2, os)) records) as Hrows
    by (by destruct t).
  split; [done|]. split; [by intros [] ?; destruct t|].
  intros d a.
  rewrite get_baseline_agents_elem, Hrows. split.
  - intros [os' Hin]. apply list_elem_of_fmap in Hin as ([d' a'] & [= -> -> _] & Hin).
    done.
  - intros Hin. exists os. apply list_elem_of_fmap. by exists (d, a).
Qed.

Lemma load_baseline_then_get_witness :
  ∃ records,
    validate_baseline_csv Example.fs_baseline Example.path = Ok records ∧
    2%nat = length records ∧ NoDup records ∧
    Store.rows_of Store.windows_agents Example.db_loaded
    = map (λ r : list N * list N, (r.1, r.2, py "Windows")) records ∧
    (∀ t', t' ≠ Store.windows_agents ->
           Store.rows_of t' Example.db_loaded = Store.rows_of t' Example.db_old) ∧
    ∀ d a,
      (∃ agents,
         Store.get_baseline_agents Store.windows_agents Example.db_loaded !! d
         = Some agents ∧ a ∈ agents)
      ↔ (d, a) ∈ records.
Proof.
  apply (load_baseline_then_get Store.windows_agents (py "Windows")
           Example.fs_baseline Example.path Example.db_old Example.db_loaded 2).
  vm_compute. reflexivity.
Defined.

(** X17.  A baseline load that does not return leaves the database as it
    was: it raises what the validator raised, or [IntegrityError] when the
    file is valid and has the same domain and agent name in two rows. *)
Theorem load_baseline_failure_keeps_database
    (t : Store.table_name) (os : list N) (fs : gmap (list N) (list byte))
    (csv_path : list N) (db db' : Store.database) (ending : Store.ending nat) :
  Store.load_baseline t os fs csv_path db = (db', ending) ->
  match ending with
  | Store.Returned _ => True
  | Store.Raised e => db' = db ∧ validate_baseline_csv fs csv_path = Raise e
  | Store.RaisedIntegrityError =>
      db' = db ∧
      ∃ records,
        validate_baseline_csv fs csv_path = Ok records ∧ ¬ NoDup records
  end.
Proof.
  unfold Store.load_baseline.
  destruct (validate_baseline_csv fs csv_path) as [records|e].
  - destruct (Store.insert_records os records []) as [rows|] eqn:E;
      intros [= <- <-]; [done|].
    split; [done|]. exists records. split; [done|].
    apply insert_records_none in E as [?|(r & _ & Hr)]; [done|].
    by apply elem_of_nil in Hr.
  - by intros [= <- <-].
Qed.

Lemma load_baseline_failure_keeps_database_witness :
  Example.db_old = Example.db_old ∧
  ∃ records,
    validate_baseline_csv Example.fs_duplicate_rows Example.path = Ok records ∧
    ¬ NoDup records.
Proof.
  apply (load_baseline_failure_keeps_database Store.windows_agents
           (py "Windows") Example.fs_duplicate_rows Example.path
           Example.db_old Example.db_old Store.RaisedIntegrityError).
  vm_compute. reflexivity.
Defined.

(** ** From the store to the results *)

(** X18.  For a baseline read from the database, every entry of the result
    has a [total] of at least one: the reports never meet a domain without
    agents, and their guard against a zero [total] is never needed. *)
Theorem database_totals_positive
    (clock : nat -> Z) (t : Store.table_name) (db : Store.database)
    (availability_map : gmap (list N * list N) Z) (calls : nat)
    (d : list N) (r : domain_results) :
  (calculate_availability clock (Store.get_baseline_agents t db)
     availability_map calls).1 !! d = Some r ->
  (1 ≤ total r)%nat.
Proof.
  intros Hr.
  pose proof (calculate_availability_lookup clock availability_map
                (Store.get_baseline_agents t db) calls d) as H.
  destruct (Store.get_baseline_agents t db !! d) as [agents|] eqn:Hd;
    [|congruence].
  destruct H as (n1 & r' & n2 & _ & Hloop & Hr').
  assert (r' = r) as -> by congruence.
  apply agents_loop_partition in Hloop as (_ & _ & ->).
  apply get_baseline_agents_non_empty in Hd.
  assert (size agents ≠ 0%nat); [|lia].
  apply size_non_empty_iff. by intros ?%leibniz_equiv.
Qed.

Lemma database_totals_positive_witness :
  (1 ≤ total (Spec.classify_domain_at Example.index Example.noon
                Example.Domain1 {[ Example.HOST01; Example.HOST02 ]}))%nat.
Proof.
  apply (database_totals_positive (Model.steady Example.noon)
           Store.windows_agents Example.db_loaded Example.index 0
           Example.Domain1).
  vm_compute. reflexivity.
Defined.

Lemma get_baseline_agents_empty (t : Store.table_name) (db : Store.database) :
  Store.get_baseline_agents t db = ∅ ↔ Store.rows_of t db = [].
Proof.
  split.
  - intros Hempty. destruct (Store.rows_of t db) as [|[[d a] os] rows] eqn:E;
      [done|].
    assert (∃ agents, Store.get_baseline_agents t db !! d = Some agents
                      ∧ a ∈ agents) as (agents & Hl & _).
    { apply get_baseline_agents_elem. exists os. rewrite E. left. }
    by rewrite Hempty, lookup_empty in Hl.
  - intros E. unfold Store.get_baseline_agents. by rewrite E.
Qed.

(** X19.  [check_availability] gives up for want of baseline data exactly
    when both tables are empty; it then has read neither availability file
    (they need not even exist) nor the clock. *)
Theorem check_availability_needs_a_baseline
    (strptime : list N -> list N -> option Z) (clock : nat -> Z)
    (fs : gmap (list N) (list byte)) (db : Store.database)
    (windows_csv linux_csv : list N) (calls : nat) :
  (Store.windows_rows db = [] ∧ Store.linux_rows db = [] ->
   Store.check_availability strptime clock fs db windows_csv linux_csv calls
   = (Ok None, calls)) ∧
  ((Store.check_availability strptime clock fs db windows_csv linux_csv
      calls).1 = Ok None ->
   Store.windows_rows db = [] ∧ Store.linux_rows db = []).
Proof.
  unfold Store.check_availability. split.
  - intros [Hw Hl]. rewrite decide_True; [done|].
    split; by apply get_baseline_agents_empty.
  - case_decide as Hd.
    + intros _. destruct Hd as [Hw Hl].
      split.
      * by apply (get_baseline_agents_empty Store.windows_agents db).
      * by apply (get_baseline_agents_empty Store.linux_agents db).
    + destruct (get_availability_records strptime fs windows_csv); [|done].
      destruct (get_availability_records strptime fs linux_csv); [|done].
      destruct (calculate_availability _ _ _ _) as [wr c1].
      by destruct (calculate_availability _ _ _ _) as [lr c2].
Qed.

(** X20.  When [check_availability] reaches the reports, every agent of the
    Windows table is, in the Windows result of its domain, in exactly one of
    [available] and [not_available], and likewise every agent of the Linux
    table in the Linux results. *)
Theorem check_availability_classifies_every_agent
    (strptime : list N -> list N -> option Z) (clock : nat -> Z)
    (fs : gmap (list N) (list byte)) (db : Store.database)
    (windows_csv linux_csv : list N) (calls calls' : nat)
    (windows_results linux_results : gmap (list N) domain_results) :
  Store.check_availability strptime clock fs db windows_csv linux_csv calls
  = (Ok (Some (windows_results, linux_results)), calls') ->
  ∀ t d a os,
    (d, a, os) ∈ Store.rows_of t db ->
    ∃ r,
      match t with
      | Store.windows_agents => windows_results
      | Store.linux_agents => linux_results
      end !! d = Some r ∧
      (a ∈ available r ∧ a ∉ not_available r ∨
       a ∈ not_available r ∧ a ∉ available r).
Proof.
  unfold Store.check_availability. case_decide; [done|].
  destruct (get_availability_records strptime fs windows_csv) as [wa|];
    [|done].
  destruct (get_availability_records strptime fs linux_csv) as [la|]; [|done].
  destruct (calculate_availability clock _ wa calls) as [wr c1] eqn:Ew.
  destruct (calculate_availability clock _ la c1) as [lr c2] eqn:El.
  intros [= <- <- <-] t d a os Hin.
  assert (∃ agents, Store.get_baseline_agents t db !! d = Some agents
                    ∧ a ∈ agents) as (agents & Hd & Ha)
    by (apply get_baseline_agents_elem; by exists os).
  assert (∀ index n results n',
            calculate_availability clock (Store.get_baseline_agents t db)
              index n = (results, n') ->
            ∃ r, results !! d = Some r ∧
                 (a ∈ available r ∧ a ∉ not_available r ∨
                  a ∈ not_available r ∧ a ∉ available r)) as Hgen.
  { intros index n results n' Hc.
    pose proof (calculate_availability_lookup clock index
                  (Store.get_baseline_agents t db) n d) as H'.
    rewrite Hd, Hc in H'. destruct H' as (n1 & r & n2 & _ & Hloop & Hr).
    exists r. split; [done|].
    apply agents_loop_partition in Hloop as (Hunion & Hdisj & _).
    rewrite <- Hunion in Ha. set_solver. }
  destruct t; [apply (Hgen wa calls wr c1 Ew)|apply (Hgen la c1 lr c2 El)].
Qed.

Lemma check_availability_classifies_every_agent_witness :
  ∃ r,
    Example.windows_results !! Example.Domain1 = Some r ∧
    (Example.HOST02 ∈ available r ∧ Example.HOST02 ∉ not_available r ∨
     Example.HOST02 ∈ not_available r ∧ Example.HOST02 ∉ available r).
Proof.
  refine (check_availability_classifies_every_agent Model.strptime
            (Model.steady Example.noon) Example.fs_feeds Example.db_loaded
            Example.windows_csv Example.linux_csv 0 1
            Example.windows_results Example.linux_results _
            Store.windows_agents Example.Domain1 Example.HOST02
            (py "Windows") _).
  - vm_compute. reflexivity.
  - right. left.
Defined.

(** ** What the availability path can raise *)

Lemma availability_map_from_error
    (strptime : list N -> list N -> option Z) records : ∀ m0 e,
  availability_map_from strptime records m0 = Raise e ->
  ∃ date_str, e = CSVValidationError (InvalidDateFormat date_str).
Proof.
  induction records as [|[[d a] s] records IH]; intros m0 e; [done|].
  rewrite availability_map_from_cons.
  destruct (parse_available_date strptime s) as [t|e'] eqn:P; [apply IH|].
  intros [= <-]. unfold parse_available_date in P.
  destruct (try_formats _ _ _); [done|]. injection P as <-. by eexists.
Qed.



(** ** The two splitters *)

Lemma split_respecting_quotes_plain line : ∀ parts current,
  dquote ∉ line ->
  split_respecting_quotes line parts current false
  = parts ++ match split comma line with
             | f :: fs => (current ++ f) :: fs
             | [] => [current]
             end.
Proof.
  induction line as [|c line IH]; intros parts current Hq; simpl.
  - by rewrite app_nil_r.
  - apply not_elem_of_cons in Hq as [Hc Hq].
    destruct (N.eqb_spec c dquote) as [->|_]; [done|].
    rewrite andb_true_r. destruct (N.eqb_spec c comma) as [->|_].
    + rewrite IH by done. rewrite <- app_assoc. simpl.
      pose proof (split_nonempty comma line). rewrite app_nil_r.
      by destruct (split comma line).
    + rewrite IH by done.
      pose proof (split_nonempty comma line).
      destruct (split comma line) as [|f fs]; [done|].
      by rewrite <- app_assoc.
Qed.

(** X22.  On a line without double quotes the splitter of the data lines
    cuts at every comma, as [split(',')] does; so for a header line without
    double quotes it makes no difference that the header is split by
    [split(',')]. *)
Theorem splitters_agree_without_quotes (line : list N) :
  dquote ∉ line ->
  split_respecting_quotes line [] [] false = split comma line ∧
  availability_headers line = Spec.availability_headers_quote_aware line.
Proof.
  intros Hq.
  assert (∀ l, dquote ∉ l ->
               split_respecting_quotes l [] [] false = split comma l) as Hsame.
  { intros l Hl. rewrite split_respecting_quotes_plain by done.
    pose proof (split_nonempty comma l). by destruct (split comma l). }
  split; [by apply Hsame|].
  unfold availability_headers, Spec.availability_headers_quote_aware.
  rewrite Hsame; [done|]. intros H. by apply strip_by_subset in H.
Qed.

Lemma splitters_agree_without_quotes_witness :
  split_respecting_quotes Example.header [] [] false
  = split comma Example.header ∧
  availability_headers Example.header
  = Spec.availability_headers_quote_aware Example.header.
Proof.
  apply (splitters_agree_without_quotes Example.header).
  apply (bool_decide_unpack _). vm_compute. reflexivity.
Defined.

(** ** Row numbers of the baseline validator *)

Lemma parse_add_char_error r c e :
  Csv.parse_add_char r c = Raise e -> e = CsvError.
Proof.
  unfold Csv.parse_add_char. destruct (_ <=? _)%N; [|done]. by intros [= <-].
Qed.

Lemma parse_process_char_error r c e :
  Csv.parse_process_char r c = Raise e -> e = CsvError.
Proof.
  unfold Csv.parse_process_char, Csv.start_field, bind.
  destruct (Csv.state r), c as [ch|]; try done;
    repeat match goal with
           | |- context [if ?b then _ else _] => destruct b
           | |- context [Csv.parse_add_char ?r ?c] =>
               destruct (Csv.parse_add_char r c) eqn:?
           end;
    try done; try (by intros [= <-]);
    intros [= <-]; by eapply parse_add_char_error.
Qed.

Lemma process_line_error line : ∀ r e,
  Csv.process_line r line = Raise e -> e = CsvError.
Proof.
  induction line as [|c line IH]; intros r e; simpl.
  - apply parse_process_char_error.
  - unfold bind. destruct (Csv.parse_process_char r (Some c)) eqn:E.
    + apply IH.
    + intros [= <-]. by apply parse_process_char_error in E.
Qed.

Lemma rows_from_error lines : ∀ r rows e,
  Csv.rows_from r lines = (rows, Some e) -> e = CsvError.
Proof.
  induction lines as [|l lines IH]; intros r rows e; simpl.
  - by repeat case_match.
  - destruct (Csv.process_line r l) as [r'|e'] eqn:E.
    + destruct (Csv.state r');
        try apply IH.
      destruct (Csv.rows_from Csv.parse_reset lines) as [rows' err] eqn:E'.
      intros [= _ ->]. by apply IH in E'.
    + intros [= _ <-]. by apply process_line_error in E.
Qed.

Lemma subscript_error d key e :
  Csv.subscript d key = Raise e -> e = KeyError key.
Proof. unfold Csv.subscript. destruct (d !! key); [done|]. by intros [= <-]. Qed.

Lemma strip_value_error v e :
  Csv.strip_value v = Raise e -> e = AttributeError.
Proof. destruct v; simpl; [done|]. by intros [= <-]. Qed.

(** Where the rows loop raises the error of an empty field. *)
Lemma baseline_rows_empty_field csv_path fieldnames rows :
  ∀ row_num err records csv_path' k,
  err = None ∨ err = Some CsvError ->
  baseline_rows csv_path fieldnames row_num rows err records
  = Raise (CSVValidationError (EmptyField csv_path' k)) ->
  csv_path' = csv_path ∧
  ∃ i row,
    filter (λ row, row ≠ []) rows !! i = Some row ∧ k = (row_num + i)%nat ∧
    baseline_rows csv_path fieldnames k [row] None []
    = Raise (CSVValidationError (EmptyField csv_path k)).
Proof.
  induction rows as [|row rows IH]; intros row_num err records csv_path' k Herr.
  - simpl. by destruct Herr as [-> | ->].
  - destruct row as [|x row].
    + cbn [baseline_rows]. intros H.
      apply (IH _ _ _ _ _ Herr) in H as (-> & i & row' & Hi & -> & Hrow).
      split; [done|]. exists i, row'.
      by rewrite filter_cons, decide_False by (by intros ?).
    + rewrite filter_cons, decide_True by done.
      cbn [baseline_rows]. unfold bind.
      destruct (Csv.subscript _ (py "Domain")) as [v|] eqn:Ev;
        [|apply subscript_error in Ev as ->; discriminate].
      destruct (Csv.strip_value v) as [domain|] eqn:Ed;
        [|apply strip_value_error in Ed as ->; discriminate].
      destruct (Csv.subscript _ (py "Agent Name")) as [w|] eqn:Ew;
        [|apply subscript_error in Ew as ->; discriminate].
      destruct (Csv.strip_value w) as [agent_name|] eqn:Ea;
        [|apply strip_value_error in Ea as ->; discriminate].
      destruct domain as [|c domain].
      { intros [= <- <-]. split; [done|]. exists 0%nat, (x :: row).
        rewrite Nat.add_0_r. split; [done|]. split; [done|].
        cbn [baseline_rows]. unfold bind. rewrite Ev, Ed, Ew, Ea.
        done. }
      destruct agent_name as [|c' agent_name].
      { intros [= <- <-]. split; [done|]. exists 0%nat, (x :: row).
        rewrite Nat.add_0_r. split; [done|]. split; [done|].
        cbn [baseline_rows]. unfold bind. by rewrite Ev, Ed, Ew, Ea. }
      intros H.
      apply (IH _ _ _ _ _ Herr) in H as (-> & i & row' & Hi & -> & Hrow).
      split; [done|]. exists (S i), row'.
      rewrite <- Nat.add_succ_comm. done.
Qed.

(** X23.  The row number in an [EmptyField] error of the baseline validator
    counts the header as row 1 and then the rows that are not empty: it
    points at the row with that rank among the non-empty rows after the
    header, whatever empty lines the file has in between. *)
Theorem baseline_error_row_counts_non_empty_rows
    (fs : gmap (list N) (list byte)) (csv_path csv_path' : list N)
    (content : list byte) (f : list N) (headers : list (list N))
    (rows : list (list (list N))) (err : option exn) (k : nat) :
  fs !! csv_path = Some content ->
  read_text content = Ok f ->
  Csv.reader_rows (readlines f) = (headers :: rows, err) ->
  validate_baseline_csv fs csv_path
  = Raise (CSVValidationError (EmptyField csv_path' k)) ->
  csv_path' = csv_path ∧ (2 ≤ k)%nat ∧
  ∃ row,
    filter (λ row, row ≠ []) rows !! (k - 2)%nat = Some row ∧
    baseline_rows csv_path headers k [row] None []
    = Raise (CSVValidationError (EmptyField csv_path k)).
Proof.
  intros Hfile Hread Hrows. unfold validate_baseline_csv. rewrite Hfile.
  destruct content as [|b content]; [done|].
  rewrite Hread. cbn [bind]. rewrite Hrows.
  destruct (decide _) as [Hheaders|]; [|done].
  destruct (baseline_rows _ _ _ _ _ _) as [out|e0] eqn:E; cbn [bind].
  { by destruct out. }
  intros [= ->].
  apply baseline_rows_empty_field in E as (-> & i & row & Hi & -> & Hrow).
  - split; [done|]. split; [lia|]. exists row.
    replace (2 + i - 2)%nat with i by lia. done.
  - destruct err as [e'|]; [right|by left]. f_equal.
    unfold Csv.reader_rows in Hrows. by apply rows_from_error in Hrows.
Qed.

Lemma baseline_error_row_counts_non_empty_rows_witness :
  Example.path = Example.path ∧ (2 ≤ 3)%nat ∧
  ∃ row,
    filter (λ row, row ≠ [])
      [[]; [py "Domain1"; py "WIN-HOST01"]; []; [py "Domain1"; []]]
      !! (3 - 2)%nat = Some row ∧
    baseline_rows Example.path [py "Domain"; py "Agent Name"] 3 [row] None []
    = Raise (CSVValidationError (EmptyField Example.path 3)).
Proof.
  apply (baseline_error_row_counts_non_empty_rows Example.fs_baseline_gaps
           Example.path Example.path
           (Model.file_of_lines Example.lines_baseline_gaps)
           (Example.text_of_lines Example.lines_baseline_gaps)
           [py "Domain"; py "Agent Name"]
           [[]; [py "Domain1"; py "WIN-HOST01"]; []; [py "Domain1"; []]]
           None 3).
  - reflexivity.
  - vm_compute. reflexivity.
  - vm_compute. reflexivity.
  - vm_compute. reflexivity.
Defined.

(** ** Lines of written fields *)

Lemma isspace_not_special c :
  isspace c = true -> c ≠ dquote ∧ c ≠ comma ∧ c ≠ squote.
Proof.
  intros H. repeat split; intros ->; vm_compute in H; discriminate H.
Qed.

Lemma has_false c s : Spec.has c s = false -> c ∉ s.
Proof.
  unfold Spec.has. induction s as [|x s IH]; simpl.
  - intros _ H. by apply elem_of_nil in H.
  - intros H. apply orb_false_iff in H as [Hx Hs].
    apply N.eqb_neq in Hx. apply not_elem_of_cons. split; [done|by apply IH].
Qed.

Lemma whitespace_not_special ws :
  forallb isspace ws = true -> (dquote ∉ ws) ∧ (comma ∉ ws).
Proof.
  induction ws as [|c ws IH]; simpl.
  - intros _. split; intros H; by apply elem_of_nil in H.
  - intros H. apply andb_true_iff in H as [Hc Hws].
    destruct (isspace_not_special c Hc) as (Hd & Hcomma & _).
    destruct (IH Hws) as [IHd IHc].
    split; apply not_elem_of_cons; split; done.
Qed.

(** A stretch outside quotes with neither comma nor double quote goes to the
    current part as it is. *)
Lemma split_respecting_quotes_outside u : ∀ rest parts current,
  dquote ∉ u -> comma ∉ u ->
  split_respecting_quotes (u ++ rest) parts current false
  = split_respecting_quotes rest parts (current ++ u) false.
Proof.
  induction u as [|c u IH]; intros rest parts current Hd Hc; simpl.
  - by rewrite app_nil_r.
  - apply not_elem_of_cons in Hd as [Hd1 Hd].
    apply not_elem_of_cons in Hc as [Hc1 Hc].
    destruct (N.eqb_spec c dquote) as [->|_]; [done|].
    destruct (N.eqb_spec c comma) as [->|_]; [done|].
    simpl. rewrite IH by done. by rewrite <- app_assoc.
Qed.

Lemma split_respecting_quotes_write f : ∀ rest parts current,
  Spec.well_written f = true ->
  split_respecting_quotes (Spec.write f ++ rest) parts current false
  = split_respecting_quotes rest parts
      (current ++ Spec.without_double_quotes f) false.
Proof.
  intros rest parts current Hf.
  unfold Spec.well_written in Hf.
  repeat (apply andb_true_iff in Hf as [Hf ?]).
  destruct (whitespace_not_special _ Hf) as [Hld Hlc].
  destruct (whitespace_not_special _ H2) as [Htd Htc].
  apply negb_true_iff, has_false in H1.
  unfold Spec.write, Spec.without_double_quotes.
  rewrite <- !app_assoc.
  rewrite split_respecting_quotes_outside by done.
  destruct (Spec.quoting_of f).
  - apply andb_true_iff in H as [Hcomma _].
    apply negb_true_iff, has_false in Hcomma.
    rewrite split_respecting_quotes_outside by done.
    rewrite split_respecting_quotes_outside by done.
    by rewrite <- !app_assoc.
  - cbn [app split_respecting_quotes]. rewrite N.eqb_refl. simpl negb.
    rewrite <- app_assoc. cbn [app].
    rewrite split_respecting_quotes_inside by done.
    rewrite split_respecting_quotes_outside by done.
    by rewrite <- !app_assoc.
  - apply negb_true_iff, has_false in H.
    assert (dquote ∉ squote :: Spec.value f ++ [squote]) as Hd.
    { intros Hin. apply elem_of_cons in Hin as [Hin|Hin]; [done|].
      apply elem_of_app in Hin as [Hin|Hin]; [done|].
      by apply list_elem_of_singleton in Hin. }
    assert (comma ∉ squote :: Spec.value f ++ [squote]) as Hc.
    { intros Hin. apply elem_of_cons in Hin as [Hin|Hin]; [done|].
      apply elem_of_app in Hin as [Hin|Hin]; [done|].
      by apply list_elem_of_singleton in Hin. }
    rewrite split_respecting_quotes_outside by done.
    rewrite split_respecting_quotes_outside by done.
    by rewrite <- !app_assoc.
Qed.

(** The character loop on a line of written fields: one part for each
    field, the field without its double quotes. *)
Lemma split_respecting_quotes_written fields : ∀ parts,
  fields ≠ [] ->
  forallb Spec.well_written fields = true ->
  split_respecting_quotes (Spec.write_line fields) parts [] false
  = parts ++ map Spec.without_double_quotes fields.
Proof.
  unfold Spec.write_line.
  induction fields as [|f fields IH]; intros parts Hne Hall; [done|].
  cbn [forallb] in Hall. apply andb_true_iff in Hall as [Hf Hall].
  destruct fields as [|f' fields].
  - cbn [map join]. rewrite <- (app_nil_r (Spec.write f)).
    rewrite split_respecting_quotes_write by done. done.
  - change (join [comma] (map Spec.write (f :: f' :: fields)))
      with (Spec.write f ++ [comma] ++ join [comma] (map Spec.write (f' :: fields))).
    rewrite split_respecting_quotes_write by done.
    cbn [app split_respecting_quotes].
    change (comma =? dquote)%N with false. rewrite N.eqb_refl. cbn [andb negb].
    rewrite IH by done. cbn [map app]. by rewrite <- app_assoc.
Qed.

Lemma strip_by_ext p q s : (∀ c, p c = q c) -> strip_by p s = strip_by q s.
Proof.
  intros Hpq.
  assert (∀ t, lstrip_by p t = lstrip_by q t) as Hl.
  { induction t as [|c t IH]; simpl; [done|]. by rewrite Hpq, IH. }
  unfold strip_by, rstrip_by. by rewrite !Hl.
Qed.

(** Stripping leaves alone what neither begins nor ends with a character of
    the class. *)
Lemma strip_by_at_no_end p s : Spec.at_an_end p s = false -> strip_by p s = s.
Proof.
  unfold Spec.at_an_end. intros H. apply orb_false_iff in H as [Hhead Hlast].
  destruct s as [|c r]; [done|].
  unfold strip_by. rewrite lstrip_by_fixed by done.
  unfold rstrip_by.
  destruct (rev (c :: r)) as [|c' r'] eqn:E.
  - apply (f_equal (@length N)) in E. rewrite length_rev in E. done.
  - rewrite lstrip_by_fixed by done. rewrite <- E. apply rev_involutive.
Qed.

Lemma strip_by_between p a v b :
  forallb p a = true -> forallb p b = true -> Spec.at_an_end p v = false ->
  strip_by p (a ++ v ++ b) = v.
Proof.
  intros Ha Hb Hv.
  rewrite strip_by_app_l by done. rewrite strip_by_app_r by done.
  by apply strip_by_at_no_end.
Qed.

Lemma at_an_end_cons_snoc p c v c' :
  Spec.at_an_end p (c :: v ++ [c']) = p c || p c'.
Proof.
  unfold Spec.at_an_end. simpl. by rewrite rev_app_distr.
Qed.

Lemma at_an_end_none p s :
  (∀ c, c ∈ s -> p c = false) -> Spec.at_an_end p s = false.
Proof.
  intros H. unfold Spec.at_an_end. apply orb_false_iff. split.
  - destruct s as [|c r]; [done|]. apply H. left.
  - destruct (rev s) as [|c r] eqn:E; [done|]. apply H.
    apply list_elem_of_In, in_rev. rewrite E. left. done.
Qed.

(** Trimming a written field, as [availability_row] trims a part, gives its
    value. *)
Lemma strip_quotes_written f :
  Spec.well_written f = true ->
  strip_quotes (Spec.without_double_quotes f) = Spec.value f.
Proof.
  intros Hf. unfold Spec.well_written in Hf.
  repeat (apply andb_true_iff in Hf as [Hf ?]).
  apply negb_true_iff in H0. apply negb_true_iff, has_false in H1.
  unfold strip_quotes, strip_chars, strip, Spec.without_double_quotes.
  assert (∀ s, dquote ∉ s ->
            strip_by (λ c, existsb (N.eqb c) [dquote]) s = s) as Hdq.
  { intros s Hs. apply strip_by_at_no_end, at_an_end_none.
    intros c Hc. simpl. rewrite orb_false_r. apply N.eqb_neq.
    intros ->. done. }
  assert (∀ s, strip_by (λ c, existsb (N.eqb c) [squote]) s
               = strip_by (λ c, c =? squote)%N s) as Hsq.
  { intros s. apply strip_by_ext. intros c. simpl. apply orb_false_r. }
  destruct (Spec.quoting_of f).
  - apply andb_true_iff in H as [_ Hws]. apply negb_true_iff in Hws.
    rewrite strip_by_between by done.
    rewrite Hdq by done. rewrite Hsq. by apply strip_by_at_no_end.
  - apply negb_true_iff in H.
    rewrite strip_by_between by done.
    rewrite Hdq by done. rewrite Hsq. by apply strip_by_at_no_end.
  - rewrite strip_by_between; [|done|done|by rewrite at_an_end_cons_snoc].
    rewrite Hdq.
    2:{ intros Hin. apply elem_of_cons in Hin as [Hin|Hin]; [done|].
        apply elem_of_app in Hin as [Hin|Hin]; [done|].
        by apply list_elem_of_singleton in Hin. }
    rewrite Hsq.
    change (squote :: Spec.value f ++ [squote])
      with ([squote] ++ Spec.value f ++ [squote]).
    by apply strip_by_between.
Qed.

(** A line of written fields, as [availability_row] reads it. *)
Lemma availability_row_written csv_path row_num fields :
  forallb Spec.well_written fields = true ->
  availability_row csv_path row_num (Spec.write_line fields)
  = match fields with
    | f0 :: f1 :: (_ :: _) as rest =>
        match Spec.value f1, Spec.value f0 with
        | [], _ | _, [] =>
            Raise (CSVValidationError (EmptyField csv_path row_num))
        | _, _ =>
            Ok (Spec.value f0, Spec.value f1,
                join (py ", ") (map Spec.value rest))
        end
    | _ => Raise (CSVValidationError (MalformedRow csv_path row_num))
    end.
Proof.
  intros Hall. unfold availability_row.
  destruct fields as [|f0 fields]; [done|].
  rewrite split_respecting_quotes_written by done.
  cbn [app]. rewrite length_map.
  destruct fields as [|f1 [|f2 rest]]; [done|done|].
  cbn [length Nat.ltb Nat.leb map nth drop].
  pose proof (proj1 (forallb_forall _ _) Hall) as Hin.
  assert (map strip_quotes (map Spec.without_double_quotes (f2 :: rest))
          = map Spec.value (f2 :: rest)) as Hdate.
  { rewrite map_map. apply map_ext_in. intros f Hf.
    apply strip_quotes_written, Hin. simpl. simpl in Hf. tauto. }
  cbn [map] in Hdate. rewrite Hdate.
  rewrite !strip_quotes_written by (apply Hin; simpl; tauto). done.
Qed.



(** ** Rows without a date *)

Lemma availability_rows_app csv_path before : ∀ row_num after records,
  availability_rows csv_path row_num (before ++ after) records
  = let* r := availability_rows csv_path row_num before records in
    availability_rows csv_path (row_num + length before) after r.
Proof.
  induction before as [|line before IH]; intros row_num after records.
  - simpl. by rewrite Nat.add_0_r.
  - cbn [app availability_rows length].
    replace (row_num + S (length before))%nat
      with (S row_num + length before)%nat by lia.
    destruct (strip line) as [|c l]; [apply IH|].
    destruct (availability_row csv_path row_num (c :: l)) as [record|e];
      [|done].
    cbn [bind]. apply IH.
Qed.

Lemma parse_available_date_blank
    (strptime : list N -> list N -> option Z) date :
  (∀ fmt, fmt ∈ date_formats -> strptime [] fmt = None) ->
  strip date = [] ->
  parse_available_date strptime date
  = Raise (CSVValidationError (InvalidDateFormat [])).
Proof.
  intros Hempty Hdate. unfold parse_available_date. rewrite Hdate.
  by rewrite (try_formats_none strptime _ _ Hempty).
Qed.

(** C10.  A data row of three fields whose third is empty once trimmed
    (nothing after the second comma, an empty pair of quotes, padding
    only) passes the availability validator wherever it stands in the
    file: only the domain and the agent name are checked, and the record
    goes to the result with its date string as it is.  No format accepts
    the empty string, so resolving such a date raises [InvalidDateFormat],
    and [get_availability_records] raises on every file the validator
    returned such a record for: the error is this record's when the dates
    of the records before it resolve. *)
Theorem empty_date_passes_validation_and_fails_in_index
    (strptime : list N -> list N -> option Z) :
  (∀ fmt, fmt ∈ date_formats -> strptime [] fmt = None) ->
  (∀ csv_path row_num before line after records f0 f1 f2,
     strip line = Spec.write_line [f0; f1; f2] ->
     forallb Spec.well_written [f0; f1; f2] = true ->
     Spec.value f0 ≠ [] -> Spec.value f1 ≠ [] ->
     strip (Spec.value f2) = [] ->
     availability_row csv_path row_num (strip line)
     = Ok (Spec.value f0, Spec.value f1, Spec.value f2) ∧
     availability_rows csv_path row_num (before ++ line :: after) records
     = let* r := availability_rows csv_path row_num before records in
       availability_rows csv_path (S (row_num + length before)) after
         (r ++ [(Spec.value f0, Spec.value f1, Spec.value f2)])) ∧
  (∀ date,
     strip date = [] ->
     parse_available_date strptime date
     = Raise (CSVValidationError (InvalidDateFormat []))) ∧
  (∀ fs csv_path before domain agent_name date after,
     validate_availability_csv fs csv_path
     = Ok (before ++ (domain, agent_name, date) :: after) ->
     strip date = [] ->
     (∃ date_str,
        get_availability_records strptime fs csv_path
        = Raise (CSVValidationError (InvalidDateFormat date_str))) ∧
     ((∀ d a s, (d, a, s) ∈ before ->
                ∃ t, parse_available_date strptime s = Ok t) ->
      get_availability_records strptime fs csv_path
      = Raise (CSVValidationError (InvalidDateFormat [])))) ∧
  validate_availability_csv Example.fs_empty_date Example.path
  = Ok [(py "d", py "a", [])] ∧
  get_availability_records strptime Example.fs_empty_date Example.path
  = Raise (CSVValidationError (InvalidDateFormat [])) ∧
  validate_availability_csv Example.fs_quoted_empty_date Example.path
  = Ok [(py "d", py "a", []);
        (py "Domain1", py "HOST01", py "2026-01-31 12:00:00")] ∧
  get_availability_records strptime Example.fs_quoted_empty_date Example.path
  = Raise (CSVValidationError (InvalidDateFormat [])).
Proof.
  intros Hempty.
  assert (∀ fs csv_path before domain agent_name date after,
     validate_availability_csv fs csv_path
     = Ok (before ++ (domain, agent_name, date) :: after) ->
     strip date = [] ->
     (∃ date_str,
        get_availability_records strptime fs csv_path
        = Raise (CSVValidationError (InvalidDateFormat date_str))) ∧
     ((∀ d a s, (d, a, s) ∈ before ->
                ∃ t, parse_available_date strptime s = Ok t) ->
      get_availability_records strptime fs csv_path
      = Raise (CSVValidationError (InvalidDateFormat [])))) as Hindex.
  { intros fs csv_path before domain agent_name date after Hvalid Hdate.
    unfold get_availability_records. rewrite Hvalid. cbn [bind].
    rewrite availability_map_from_app.
    pose proof (parse_available_date_blank strptime date Hempty Hdate)
      as Hparse.
    split.
    - destruct (availability_map_from strptime before ∅) as [m|e] eqn:E.
      + exists []. rewrite availability_map_from_cons. by rewrite Hparse.
      + destruct (availability_map_from_error strptime _ _ _ E) as [s ->].
        by exists s.
    - intros Hbefore.
      destruct (availability_map_from_all_parse strptime before ∅ Hbefore)
        as [m ->].
      rewrite availability_map_from_cons. by rewrite Hparse. }
  assert (validate_availability_csv Example.fs_empty_date Example.path
          = Ok [(py "d", py "a", [])]) as Hvalid1
    by (vm_compute; reflexivity).
  assert (validate_availability_csv Example.fs_quoted_empty_date Example.path
          = Ok [(py "d", py "a", []);
                (py "Domain1", py "HOST01", py "2026-01-31 12:00:00")])
    as Hvalid2 by (vm_compute; reflexivity).
  split; [|split; [|split; [|split; [|split; [|split]]]]].
  - intros csv_path row_num before line after records f0 f1 f2
      Hline Hall Hd Ha Hdate.
    assert (availability_row csv_path row_num (strip line)
            = Ok (Spec.value f0, Spec.value f1, Spec.value f2)) as Hrow.
    { rewrite Hline, availability_row_written by done.
      destruct (Spec.value f1); [done|]. by destruct (Spec.value f0). }
    split; [done|].
    rewrite availability_rows_app. 
    destruct (availability_rows csv_path row_num before records) as [r|e];
      [|done].
    cbn [bind availability_rows].
    destruct (strip line) as [|c l] eqn:E.
    + exfalso. symmetry in Hline. revert Hline.
      unfold Spec.write_line. cbn [map join].
      intros Hline. apply (f_equal (@length N)) in Hline.
      rewrite !length_app in Hline. simpl in Hline. lia.
    + by rewrite (availability_row_number_irrelevant _ _
                    (row_num + length before) _ _ Hrow).
  - intros date Hdate. by apply parse_available_date_blank.
  - exact Hindex.
  - exact Hvalid1.
  - destruct (Hindex Example.fs_empty_date Example.path []
                (py "d") (py "a") [] [] Hvalid1 eq_refl) as [_ H].
    apply H. intros d a s Hin. by apply elem_of_nil in Hin.
  - exact Hvalid2.
  - destruct (Hindex Example.fs_quoted_empty_date Example.path []
                (py "d") (py "a") []
                [(py "Domain1", py "HOST01", py "2026-01-31 12:00:00")]
                Hvalid2 eq_refl) as [_ H].
    apply H. intros d a s Hin. by apply elem_of_nil in Hin.
Qed.

Lemma empty_date_passes_validation_and_fails_in_index_witness :
  availability_rows Example.path 2
    [Example.quoted_empty_date_line; py "Domain1,HOST01,2026-01-31 12:00:00"]
    []
  = availability_rows Example.path 3
      [py "Domain1,HOST01,2026-01-31 12:00:00"] [(py "d", py "a", [])] ∧
  validate_availability_csv Example.fs_quoted_empty_date Example.path
  = Ok [(py "d", py "a", []);
        (py "Domain1", py "HOST01", py "2026-01-31 12:00:00")] ∧
  get_availability_records Model.strptime Example.fs_quoted_empty_date
    Example.path
  = Raise (CSVValidationError (InvalidDateFormat [])) ∧
  validate_availability_csv Example.fs_empty_date Example.path
  = Ok [(py "d", py "a", [])] ∧
  get_availability_records Model.strptime Example.fs_empty_date Example.path
  = Raise (CSVValidationError (InvalidDateFormat [])).
Proof.
  assert (∀ fmt, fmt ∈ date_formats -> Model.strptime [] fmt = None) as Hempty.
  { intros fmt Hin.
    repeat (apply elem_of_cons in Hin as [->|Hin]; [vm_compute; reflexivity|]).
    by apply elem_of_nil in Hin. }
  destruct (empty_date_passes_validation_and_fails_in_index Model.strptime
              Hempty) as (Hrow & _ & _ & Hvalid1 & Hindex1 & Hvalid2 & Hindex2).
  split; [|split; [exact Hvalid2|split; [exact Hindex2|
           split; [exact Hvalid1|exact Hindex1]]]].
  destruct (Hrow Example.path 2%nat [] Example.quoted_empty_date_line
              [py "Domain1,HOST01,2026-01-31 12:00:00"] []
              (Spec.mk_field [] Spec.DoubleQuoted (py "d") (py " "))
              (Spec.mk_field (py " ") Spec.DoubleQuoted (py "a") (py " "))
              (Spec.mk_field (py " ") Spec.DoubleQuoted [] [])
              eq_refl eq_refl ltac:(discriminate) ltac:(discriminate) eq_refl)
    as [_ H].
  exact H.
Defined.
